(** * Peer code review: the review pipeline of app.py

    The development embeds the four functions of [src/app.py] that carry
    logic: [validate_response_format], [validate_python_syntax],
    [extract_code_blocks] and [review_code], together with the part of
    Python they run on: [str.strip], [str.lower], dictionaries, exceptions,
    and the fragment of the [re] module the patterns of the file stay in.

    - A Python [str] is a list of code points ([N]).
    - A Python [dict] with string keys is a [gmap string _]; a record that
      lacks a key is a map without it.
    - A call returns, raises, or leaves the modelled fragment of [re]
      ([py], with its monad).
    - [re] is modelled from the pattern text on: a parser for literals,
      escapes, [.], [^], capturing groups and the quantifiers [*], [+], [?]
      with their lazy and possessive forms on one character, with the
      errors [sre_parse] raises and their positions, and a backtracking
      matcher that tries alternatives in the order of [re]. Character
      classes, [$], [|], [{m,n}], [(?...)], class escapes and repeated
      groups are left out ([Unmodelled]). The grammar changed with Python
      3.11, so the interpreter is a parameter.
    - The model call [llm.invoke] and the parser [ast.parse] are parameters
      of the section that defines [review_code]: the first returns the
      content or fails with an [Exception]; the second parses the code,
      raises a [SyntaxError], or raises another exception, which the
      source does not catch. *)

From Stdlib Require Import NArith List String Ascii Bool Lia.
From stdpp Require Import base option list gmap strings.

Local Open Scope N_scope.
Local Open Scope nat_scope.
Local Open Scope list_scope.

(** ** Python strings *)

Abbreviation pystr := (list N).

(** An ASCII literal of the source, as code points. *)
Definition lit (s : string) : pystr :=
  List.map N_of_ascii (list_ascii_of_string s).

Definition NEWLINE : N := 10%N.

Fixpoint pystr_eqb (a b : pystr) : bool :=
  match a, b with
  | [], [] => true
  | x :: a', y :: b' => N.eqb x y && pystr_eqb a' b'
  | _, _ => false
  end.

(** [str.isspace] on one code point: the code points Python's [strip]
    removes (Unicode white space, and the separators U+001C..U+001F). *)
Definition isspace (c : N) : bool :=
  ((9 <=? c) && (c <=? 13) || (28 <=? c) && (c <=? 32)
   || (c =? 133) || (c =? 160) || (c =? 5760)
   || (8192 <=? c) && (c <=? 8202)
   || (c =? 8232) || (c =? 8233) || (c =? 8239) || (c =? 8287)
   || (c =? 12288))%N.

Fixpoint lstrip (s : pystr) : pystr :=
  match s with
  | c :: s' => if isspace c then lstrip s' else s
  | [] => []
  end.

Definition rstrip (s : pystr) : pystr := rev (lstrip (rev s)).

(** [s.strip()] *)
Definition strip (s : pystr) : pystr := rstrip (lstrip s).

(** [str.lower] on one code point. It is Python's on the code points below
    U+0100 and on the two above them whose lower case holds an ASCII
    character (U+0130 and U+212A). Every other code point is kept: its
    lower case holds no ASCII character, and the source only compares the
    lowered language with an ASCII literal. *)
Definition lower_cp (c : N) : pystr :=
  (if (65 <=? c) && (c <=? 90) then [c + 32]
   else if (192 <=? c) && (c <=? 222) && negb (c =? 215) then [c + 32]
   else if c =? 304 then [105; 775]
   else if c =? 8490 then [107]
   else [c])%N.

(** [s.lower()] *)
Definition lower (s : pystr) : pystr := flat_map lower_cp s.

(** [s.startswith(w)] *)
Fixpoint startswith (w s : pystr) : bool :=
  match w, s with
  | [], _ => true
  | x :: w', y :: s' => N.eqb x y && startswith w' s'
  | _ :: _, [] => false
  end.

(** ** Outcomes of a call *)

Inductive exn :=
  | KeyError (key : string)
  | AttributeError
  | re_error (msg : pystr) (pos : nat)
  | PyException (cls : string) (message : pystr)
      (* any other exception: the name of its class and its [str] *).

(** A call returns a value, raises, or runs into a construct of [re] that
    the model leaves out ([Unmodelled]). *)
Inductive py (A : Type) :=
  | Ret (a : A)
  | Raise (e : exn)
  | Unmodelled.
Arguments Ret {A} a.
Arguments Raise {A} e.
Arguments Unmodelled {A}.

#[export] Instance py_ret : MRet py := fun _ a => Ret a.
#[export] Instance py_bind : MBind py := fun _ _ f m =>
  match m with
  | Ret a => f a
  | Raise e => Raise e
  | Unmodelled => Unmodelled
  end.

(** [d[k]] *)
Definition getitem {A} (d : gmap string A) (k : string) : py A :=
  match d !! k with
  | Some a => Ret a
  | None => Raise (KeyError k)
  end.

(** ** The [re] module *)

(** The two grammars of [re]: up to Python 3.10 a quantifier that follows a
    quantifier is an error; from 3.11 on [*+], [++] and [?+] are possessive
    quantifiers. *)
Inductive interpreter := Py3_10 | Py3_11.

Record re_flags := { MULTILINE : bool; DOTALL : bool }.

Inductive atom :=
  | ALit (c : N)        (* LITERAL *)
  | ADot.               (* ANY *)

Inductive rmode := Greedy | Lazy | Possessive.
Inductive quant := QStar | QPlus | QOpt.

(** A compiled pattern is a sequence of operations, as in the code [re]
    compiles to: one character, the start anchor, a repeat of one
    character, and the marks that open and close a group. *)
Inductive op :=
  | OAtom (a : atom)
  | OBol
  | ORepeat (q : quant) (m : rmode) (a : atom)
  | OOpen (g : nat)
  | OClose (g : nat).

Inductive parse_result :=
  | Compiled (prog : list op) (groups : nat)
  | ParseError (msg : pystr) (pos : nat)
  | OutsideFragment.

Inductive token_class :=
  | TLiteral | TDot | TCaret | TOpen | TClose | TRepeat (q : quant) | TOther.

(** The characters of [SPECIAL_CHARS] ([.\[{()*+?^$|]) apart from the
    backslash; every other character stands for itself. *)
Definition classify (c : N) : token_class :=
  (if c =? 46 then TDot
   else if c =? 94 then TCaret
   else if c =? 40 then TOpen
   else if c =? 41 then TClose
   else if c =? 42 then TRepeat QStar
   else if c =? 43 then TRepeat QPlus
   else if c =? 63 then TRepeat QOpt
   else if (c =? 91) || (c =? 123) || (c =? 36) || (c =? 124) then TOther
   else TLiteral)%N.

Inductive escape_class := EscLiteral (c : N) | EscBad | EscOther.

Definition ascii_letter (c : N) : bool :=
  ((65 <=? c) && (c <=? 90) || (97 <=? c) && (c <=? 122))%N.

(** [\c] outside a character class: the escapes of [ESCAPES] apart from
    [\b], a class or a numeric escape (left out), another ASCII letter (an
    error), or the character itself. *)
Definition escape (c : N) : escape_class :=
  (if c =? 97 then EscLiteral 7
   else if c =? 102 then EscLiteral 12
   else if c =? 110 then EscLiteral 10
   else if c =? 114 then EscLiteral 13
   else if c =? 116 then EscLiteral 9
   else if c =? 118 then EscLiteral 11
   else if c =? 92 then EscLiteral 92
   else if (48 <=? c) && (c <=? 57) then EscOther
   else if existsb (N.eqb c) (lit "AbBdDsSwWZxuUN") then EscOther
   else if ascii_letter c then EscBad
   else EscLiteral c)%N.

(** The tokenizer reads one token ahead: a backslash that ends the pattern
    is refused as soon as the token before it is taken. *)
Definition lone_backslash (rest : pystr) : bool :=
  match rest with
  | [c] => (c =? 92)%N
  | _ => false
  end.

(** No group is open. *)
Definition no_group (opened : list (nat * nat)) : bool :=
  match opened with [] => true | _ :: _ => false end.

Definition bad_escape_end : pystr := lit "bad escape (end of pattern)".

(** [sre_parse._parse], on the fragment: [pos] is the index of the next
    character, [groups] the number of groups opened so far, [opened] the
    groups still open (number and index of the parenthesis), [acc] the
    operations so far, last first. *)
Fixpoint parse (v : interpreter) (pat : pystr) (pos groups : nat)
    (opened : list (nat * nat)) (acc : list op) {struct pat} : parse_result :=
  match pat with
  | [] =>
      match opened with
      | [] => Compiled (rev acc) groups
      | (_, start) :: _ =>
          ParseError (lit "missing ), unterminated subpattern") start
      end
  | c :: rest =>
      if (c =? 41)%N && no_group opened then
        ParseError (lit "unbalanced parenthesis") pos
      else if (c =? 92)%N then
        match rest with
        | [] => ParseError bad_escape_end pos
        | e :: rest' =>
            if lone_backslash rest' then ParseError bad_escape_end (pos + 2)
            else match escape e with
                 | EscLiteral x =>
                     parse v rest' (pos + 2) groups opened (OAtom (ALit x) :: acc)
                 | EscBad => ParseError (lit "bad escape \" ++ [e]) pos
                 | EscOther => OutsideFragment
                 end
        end
      else if lone_backslash rest then ParseError bad_escape_end (pos + 1)
      else
        match classify c with
        | TLiteral => parse v rest (pos + 1) groups opened (OAtom (ALit c) :: acc)
        | TDot => parse v rest (pos + 1) groups opened (OAtom ADot :: acc)
        | TCaret => parse v rest (pos + 1) groups opened (OBol :: acc)
        | TOpen =>
            match rest with
            | 63%N :: _ => OutsideFragment
            | _ => parse v rest (pos + 1) (S groups)
                     ((S groups, pos) :: opened) (OOpen (S groups) :: acc)
            end
        | TClose =>
            match opened with
            | (g, _) :: opened' =>
                parse v rest (pos + 1) groups opened' (OClose g :: acc)
            | [] => ParseError (lit "unbalanced parenthesis") pos
            end
        | TRepeat q =>
            match acc with
            | [] | OOpen _ :: _ | OBol :: _ =>
                ParseError (lit "nothing to repeat") pos
            | ORepeat _ _ _ :: _ => ParseError (lit "multiple repeat") pos
            | OClose _ :: _ => OutsideFragment
            | OAtom a :: acc' =>
                match rest with
                | 63%N :: rest' =>
                    if lone_backslash rest' then
                      ParseError bad_escape_end (pos + 2)
                    else parse v rest' (pos + 2) groups opened
                           (ORepeat q Lazy a :: acc')
                | 43%N :: rest' =>
                    match v with
                    | Py3_11 =>
                        if lone_backslash rest' then
                          ParseError bad_escape_end (pos + 2)
                        else parse v rest' (pos + 2) groups opened
                               (ORepeat q Possessive a :: acc')
                    | Py3_10 =>
                        parse v rest (pos + 1) groups opened
                          (ORepeat q Greedy a :: acc')
                    end
                | _ => parse v rest (pos + 1) groups opened
                         (ORepeat q Greedy a :: acc')
                end
            end
        | TOther => OutsideFragment
        end
  end.

(** [re.compile(pattern, flags)] *)
Record pattern_obj := { p_prog : list op; p_flags : re_flags; p_groups : nat }.

Definition re_compile (v : interpreter) (pattern : pystr) (flags : re_flags)
    : py pattern_obj :=
  match parse v pattern 0 0 [] [] with
  | Compiled prog g => Ret {| p_prog := prog; p_flags := flags; p_groups := g |}
  | ParseError msg pos => Raise (re_error msg pos)
  | OutsideFragment => Unmodelled
  end.

(** *** Matching *)

Definition atom_ok (fl : re_flags) (a : atom) (c : N) : bool :=
  match a with
  | ALit x => N.eqb x c
  | ADot => DOTALL fl || negb (N.eqb c NEWLINE)
  end.

(** [^]: the start of the text, and with MULTILINE the place after each
    newline. [prev] is the character before the current place. *)
Definition at_beginning (fl : re_flags) (prev : option N) : bool :=
  match prev with
  | None => true
  | Some c => MULTILINE fl && N.eqb c NEWLINE
  end.

(** A mark is the place where a group opened ([false]) or closed ([true]). *)
Abbreviation marks := (list (nat * bool * nat)).

Section Repeat.
Context {R : Type} (fl : re_flags) (a : atom).
(** What follows the repeat: the previous character, the place, the rest
    of the text and the marks. *)
Variable k : option N -> nat -> pystr -> marks -> option R.

(** As few as possible: what follows is tried first. *)
Fixpoint star_lazy (prev : option N) (i : nat) (rest : pystr) (ms : marks)
    : option R :=
  match k prev i rest ms with
  | Some r => Some r
  | None =>
      match rest with
      | c :: rest' =>
          if atom_ok fl a c then star_lazy (Some c) (S i) rest' ms else None
      | [] => None
      end
  end.

(** As many as possible, giving back one at a time. *)
Fixpoint star_greedy (prev : option N) (i : nat) (rest : pystr) (ms : marks)
    : option R :=
  match rest with
  | c :: rest' =>
      if atom_ok fl a c then
        match star_greedy (Some c) (S i) rest' ms with
        | Some r => Some r
        | None => k prev i rest ms
        end
      else k prev i rest ms
  | [] => k prev i rest ms
  end.

(** As many as possible, giving nothing back. *)
Fixpoint star_possessive (prev : option N) (i : nat) (rest : pystr)
    (ms : marks) : option R :=
  match rest with
  | c :: rest' =>
      if atom_ok fl a c then star_possessive (Some c) (S i) rest' ms
      else k prev i rest ms
  | [] => k prev i rest ms
  end.

Definition star (m : rmode) :=
  match m with
  | Lazy => star_lazy
  | Greedy => star_greedy
  | Possessive => star_possessive
  end.

(** One mandatory character. *)
Definition one (k' : option N -> nat -> pystr -> marks -> option R)
    (prev : option N) (i : nat) (rest : pystr) (ms : marks) : option R :=
  match rest with
  | c :: rest' => if atom_ok fl a c then k' (Some c) (S i) rest' ms else None
  | [] => None
  end.

Definition opt (m : rmode) (prev : option N) (i : nat) (rest : pystr)
    (ms : marks) : option R :=
  match m with
  | Lazy =>
      match k prev i rest ms with
      | Some r => Some r
      | None => one k prev i rest ms
      end
  | Greedy =>
      match one k prev i rest ms with
      | Some r => Some r
      | None => k prev i rest ms
      end
  | Possessive =>
      match rest with
      | c :: rest' =>
          if atom_ok fl a c then k (Some c) (S i) rest' ms
          else k prev i rest ms
      | [] => k prev i rest ms
      end
  end.
End Repeat.

(** The backtracking matcher, from one place of the text: the end of the
    first match in the order [re] tries them, with its marks. *)
Fixpoint run (fl : re_flags) (prog : list op) (prev : option N) (i : nat)
    (rest : pystr) (ms : marks) {struct prog} : option (nat * marks) :=
  match prog with
  | [] => Some (i, ms)
  | OAtom a :: p => one fl a (run fl p) prev i rest ms
  | OBol :: p => if at_beginning fl prev then run fl p prev i rest ms else None
  | ORepeat QStar m a :: p => star fl a (run fl p) m prev i rest ms
  | ORepeat QPlus m a :: p => one fl a (star fl a (run fl p) m) prev i rest ms
  | ORepeat QOpt m a :: p => opt fl a (run fl p) m prev i rest ms
  | OOpen g :: p => run fl p prev i rest ((g, false, i) :: ms)
  | OClose g :: p => run fl p prev i rest ((g, true, i) :: ms)
  end.

(** [re.Match] *)
Record match_obj := {
  m_string : pystr;
  m_start : nat;
  m_end : nat;
  m_marks : marks;
  m_groups : nat
}.

(** The first place, from the left, where the pattern matches. *)
Fixpoint search_from (fl : re_flags) (prog : list op) (prev : option N)
    (i : nat) (rest : pystr) : option (nat * nat * marks) :=
  match run fl prog prev i rest [] with
  | Some (e, ms) => Some (i, e, ms)
  | None =>
      match rest with
      | c :: rest' => search_from fl prog (Some c) (S i) rest'
      | [] => None
      end
  end.

(** [pattern.search(string)] *)
Definition pattern_search (p : pattern_obj) (s : pystr) : option match_obj :=
  match search_from (p_flags p) (p_prog p) None 0 s with
  | Some (b, e, ms) =>
      Some {| m_string := s; m_start := b; m_end := e; m_marks := ms;
              m_groups := p_groups p |}
  | None => None
  end.

(** [re.search(pattern, string, flags)] *)
Definition re_search (v : interpreter) (pattern s : pystr) (flags : re_flags)
    : py (option match_obj) :=
  p ← re_compile v pattern flags; mret (pattern_search p s).

Fixpoint find_mark (g : nat) (closing : bool) (ms : marks) : option nat :=
  match ms with
  | (g', b, i) :: ms' =>
      if Nat.eqb g g' && Bool.eqb closing b then Some i
      else find_mark g closing ms'
  | [] => None
  end.

(** [m.group(g)] for a group of the pattern: the text between its marks,
    [None] when the group took no part in the match. *)
Definition group (m : match_obj) (g : nat) : option pystr :=
  match find_mark g false (m_marks m), find_mark g true (m_marks m) with
  | Some b, Some e => Some (take (e - b) (drop b (m_string m)))
  | _, _ => None
  end.

(** ** The functions of app.py *)

Definition RE_MULTILINE : re_flags := {| MULTILINE := true; DOTALL := false |}.
Definition RE_DOTALL : re_flags := {| MULTILINE := false; DOTALL := true |}.

(** [all(f(x) for x in l)]: stops at the first false. *)
Fixpoint py_all {A} (f : A -> py bool) (l : list A) : py bool :=
  match l with
  | [] => Ret true
  | x :: l' => b ← f x; if b : bool then py_all f l' else Ret false
  end.

Definition required_sections : list pystr :=
  [ lit "^\*\*Issues:\*\*";
    lit "^\*\*Corrected Code \(Preserve Indentation\):\*\*";
    lit "^\*\*Optimized Code:\*\*";
    lit "^\*\*Explanation:\*\*" ].

(** A match object is true, [None] is false. *)
Definition truthy {A} (m : option A) : bool :=
  match m with Some _ => true | None => false end.

Definition validate_response_format (v : interpreter) (response : pystr)
    : py bool :=
  py_all (fun section =>
            m ← re_search v section response RE_MULTILINE; mret (truthy m))
         required_sections.

(** The pattern both searches of [extract_code_blocks] compile: the raw
    f-string, a fence, the language, the two characters backslash and n, the
    group and a fence. *)
Definition block_pattern (language : pystr) : pystr :=
  lit "```" ++ language ++ lit "\n(.*?)```".

(** [m.group(1).strip() if m else None] *)
Definition stripped_group (m : option match_obj) : py (option pystr) :=
  match m with
  | Some m =>
      match group m 1 with
      | Some g => Ret (Some (strip g))
      | None => Raise AttributeError
      end
  | None => Ret None
  end.

Definition extract_code_blocks (v : interpreter) (response language : pystr)
    : py (option pystr * option pystr) :=
  corrected_pattern ← re_compile v (block_pattern language) RE_DOTALL;
  optimized_pattern ← re_compile v (block_pattern language) RE_DOTALL;
  let corrected_match := pattern_search corrected_pattern response in
  let optimized_match := pattern_search optimized_pattern response in
  corrected ← stripped_group corrected_match;
  optimized ← stripped_group optimized_match;
  mret (corrected, optimized).

(** The red circle U+1F534 that opens the annotation. *)
Definition RED_CIRCLE : N := 128308%N.

(** What the model call did: [llm.invoke(prompt).content], or an
    [Exception] with its [str]. *)
Inductive invoked :=
  | Content (text : pystr)
  | Failed (message : pystr).

Definition prompt (language original_code : pystr) : pystr :=
  lit "### Code Review Task for " ++ language ++ [NEWLINE]
  ++ lit "Analyze this code for errors, correct them while preserving indentation, "
  ++ [NEWLINE]
  ++ lit "then create an optimized version. Follow this format:" ++ [NEWLINE]
  ++ [NEWLINE]
  ++ lit "**Issues:** List problems found" ++ [NEWLINE]
  ++ lit "**Corrected Code (Preserve Indentation):** " ++ language
  ++ lit " code block with fixes" ++ [NEWLINE]
  ++ lit "**Optimized Code:** " ++ language
  ++ lit " code block with improvements" ++ [NEWLINE]
  ++ lit "**Explanation:** Benefits of optimizations" ++ [NEWLINE]
  ++ [NEWLINE]
  ++ lit "Original Code:" ++ [NEWLINE]
  ++ lit "```" ++ language ++ [NEWLINE]
  ++ original_code ++ [NEWLINE]
  ++ lit "```".

(** What [ast.parse] did with a text: it parsed it, it raised a
    [SyntaxError] (with its [str]), or it raised another exception, as it
    does with [ValueError] on a NUL character up to Python 3.11, with
    [UnicodeEncodeError] on a lone surrogate and with [RecursionError] on
    deep nesting. *)
Inductive parsed :=
  | Parsed
  | SyntaxError (message : pystr)
  | ParseRaised (e : exn).

Section Pipeline.
Variable v : interpreter.
(** [llm.invoke] *)
Variable llm_invoke : pystr -> invoked.
(** [ast.parse] *)
Variable ast_parse : pystr -> parsed.

(** Only the [SyntaxError] is caught; any other exception of the parser
    leaves the function. *)
Definition validate_python_syntax (code : pystr) : py pystr :=
  match ast_parse code with
  | Parsed => mret []
  | SyntaxError e =>
      mret (RED_CIRCLE :: lit " Syntax Error in Generated Code:"
            ++ [NEWLINE] ++ e)
  | ParseRaised x => Raise x
  end.

(** The syntax step of [review_code]: the message to append, empty when
    there is none. *)
Definition syntax_step (language response : pystr) : py pystr :=
  if pystr_eqb (lower language) (lit "python") then
    '(corrected_code, _) ← extract_code_blocks v response language;
    match corrected_code with
    | Some ((_ :: _) as code) => validate_python_syntax code
    | _ => mret []
    end
  else mret [].

Definition review_code (state : gmap string pystr)
    : py (gmap string pystr) :=
  language ← getitem state "language";
  code ← getitem state "code";
  let original_code := strip code in
  match llm_invoke (prompt language original_code) with
  | Failed e => mret {[ "error" := lit "API Error: " ++ e ]}
  | Content response =>
      ok ← validate_response_format v response;
      if negb ok then
        mret {[ "error" := lit "Invalid response format from AI model" ]}
      else
        validation_msg ← syntax_step language response;
        let review :=
          match validation_msg with
          | [] => response
          | _ :: _ => response ++ [NEWLINE; NEWLINE] ++ validation_msg
          end in
        mret {[ "language" := language;
                "code" := original_code;
                "review" := review;
                "error" := [] ]}
  end.
End Pipeline.

(** ** Notions the properties are stated with *)

(** [s.find(w)]: the index of the first occurrence of [w] in [s]. *)
Fixpoint find (w s : pystr) : option nat :=
  if startswith w s then Some 0
  else match s with
       | _ :: s' => S <$> find w s'
       | [] => None
       end.

(** The four headers as they stand in a response. *)
Definition headers : list pystr :=
  [ lit "**Issues:**";
    lit "**Corrected Code (Preserve Indentation):**";
    lit "**Optimized Code:**";
    lit "**Explanation:**" ].

(** [pre] ends a line: it is empty or ends with a newline. *)
Definition ends_line (pre : pystr) : Prop :=
  pre = [] \/ exists pre', pre = pre' ++ [NEWLINE].

(** [h] stands at the start of a line of [s]. *)
Definition at_line_start (h s : pystr) : Prop :=
  exists pre post, s = pre ++ h ++ post /\ ends_line pre.

Definition has_all_headers (s : pystr) : Prop :=
  Forall (fun h => at_line_start h s) headers.

(** [SPECIAL_CHARS] of [re]; a plain character is none of them. *)
Definition SPECIAL_CHARS : pystr := lit ".\[{()*+?^$|".
Definition plain (c : N) : bool := negb (existsb (N.eqb c) SPECIAL_CHARS).

Definition fence : pystr := lit "```".
(** The line that opens a block tagged with the language. *)
Definition opening (language : pystr) : pystr := fence ++ language ++ [NEWLINE].

(** [body] lies in [response] between an opening fence tagged with the
    language and a closing fence. *)
Definition block_at (response language pre body post : pystr) : Prop :=
  response = pre ++ opening language ++ body ++ fence ++ post.

Definition has_block (response language : pystr) : Prop :=
  exists pre body post, block_at response language pre body post.

(** The first block: no block opens further left, and none that opens at
    the same place closes earlier. *)
Definition first_block (response language body : pystr) : Prop :=
  exists pre post,
    block_at response language pre body post /\
    forall pre' body' post', block_at response language pre' body' post' ->
      length pre <= length pre' /\
      (length pre' = length pre -> length body <= length body').

(** A field of a result holds text: it is there and not the empty string. *)
Definition nonempty_field (d : gmap string pystr) (k : string) : Prop :=
  exists s, d !! k = Some s /\ s <> [].

(** The annotation [validate_python_syntax] builds from the message of a
    [SyntaxError]. *)
Definition annotation (e : pystr) : pystr :=
  RED_CIRCLE :: lit " Syntax Error in Generated Code:" ++ [NEWLINE] ++ e.

(** The languages the page offers. *)
Definition ui_languages : list pystr :=
  [ lit "Python"; lit "JavaScript"; lit "Java"; lit "C++"; lit "Go" ].

(** The operations of a pattern that is a literal text. *)
Definition lits (w : pystr) : list op := List.map (fun c => OAtom (ALit c)) w.

(** The character before the current place once [w] has been read. *)
Fixpoint last_prev (prev : option N) (w : pystr) : option N :=
  match w with
  | [] => prev
  | c :: w' => last_prev (Some c) w'
  end.

(** One header is found by its pattern. *)
Definition hit (h s : pystr) : bool :=
  truthy (search_from RE_MULTILINE (OBol :: lits h) None 0 s).

(** What the pattern of [extract_code_blocks] compiles to when the language
    is plain text: the opening line, the group around a lazy repeat of any
    character, and the closing fence. *)
Definition block_prog (language : pystr) : list op :=
  lits (opening language)
  ++ [OOpen 1; ORepeat QStar Lazy ADot; OClose 1] ++ lits fence.

(** The block a plain scan finds: the first opening line, then the text up
    to the first fence after it. *)
Definition find_block (response language : pystr) : option pystr :=
  a ← find (opening language) response;
  let body := drop (a + length (opening language)) response in
  n ← find fence body;
  Some (strip (take n body)).

(** The claim about the two slots of [extract_code_blocks], as a
    statement: both hold the trimmed text of the first block tagged with
    the language, or both are [None] and there is no such block. *)
Definition both_first_block (v : interpreter) (response language : pystr)
    : Prop :=
  (exists body, first_block response language body /\
     extract_code_blocks v response language =
     Ret (Some (strip body), Some (strip body))) \/
  (~ has_block response language /\
     extract_code_blocks v response language = Ret (None, None)).

(** The marks a pattern sets. *)
Fixpoint marks_of (prog : list op) : list (nat * bool) :=
  match prog with
  | OOpen g :: p => (g, false) :: marks_of p
  | OClose g :: p => (g, true) :: marks_of p
  | _ :: p => marks_of p
  | [] => []
  end.

(** The code the syntax step hands to the parser, if any: the block a
    plain scan finds for a language that lowers to [python], when it is not
    empty. *)
Definition checked_code (language response : pystr) : option pystr :=
  if pystr_eqb (lower language) (lit "python") then
    match find_block response language with
    | Some ((_ :: _) as code) => Some code
    | _ => None
    end
  else None.

(** What the syntax step comes to on that code. *)
Definition syntax_note (ast_parse : pystr -> parsed)
    (language response : pystr) : py pystr :=
  match checked_code language response with
  | Some code => validate_python_syntax ast_parse code
  | None => Ret []
  end.

(** The parser raises [x], an exception other than [SyntaxError], on the
    code of the response: the language lowers to [python], and the first
    block tagged with it, trimmed, is not empty and makes [ast.parse] raise
    [x]. *)
Definition parser_raises (ast_parse : pystr -> parsed)
    (language response : pystr) (x : exn) : Prop :=
  pystr_eqb (lower language) (lit "python") = true /\
  exists body, first_block response language body /\
               strip body <> [] /\ ast_parse (strip body) = ParseRaised x.

(** What the note adds to the review. *)
Definition with_note (response note : pystr) : pystr :=
  match note with
  | [] => response
  | _ :: _ => response ++ [NEWLINE; NEWLINE] ++ note
  end.

(** Closes an equation between two results of a search that differ in how
    their places are written. *)
Ltac places :=
  repeat match goal with
         | |- Some _ = Some _ => f_equal
         | |- (_, _) = (_, _) => f_equal
         | |- _ :: _ = _ :: _ => f_equal
         | |- @eq nat _ _ => lia
         end;
  try reflexivity.

(** ** Sample runs *)

(** A state as the page builds it. *)
Definition sample_state (language : pystr) : gmap string pystr :=
  {[ "language" := language; "code" := lit " x = 1 ";
     "review" := []; "error" := [] ]}.

(** A response with the four headers and one block tagged [Python]. *)
Definition sample_response (code : pystr) : pystr :=
  lit "**Issues:** a colon is missing" ++ [NEWLINE]
  ++ lit "**Corrected Code (Preserve Indentation):**" ++ [NEWLINE]
  ++ lit "```Python" ++ [NEWLINE] ++ code ++ [NEWLINE] ++ lit "```" ++ [NEWLINE]
  ++ lit "**Optimized Code:**" ++ [NEWLINE]
  ++ lit "**Explanation:** none" ++ [NEWLINE].

(** A response that lacks the last header. *)
Definition sample_short_response : pystr :=
  lit "**Issues:** none" ++ [NEWLINE]
  ++ lit "**Corrected Code (Preserve Indentation):**" ++ [NEWLINE]
  ++ lit "**Optimized Code:**" ++ [NEWLINE].

Definition sample_bad_code : pystr := lit "def f(: return 1".
Definition sample_syntax_error : pystr :=
  lit "invalid syntax (<unknown>, line 1)".

(** A parser that refuses the malformed sample and nothing else. *)
Definition sample_parse (code : pystr) : parsed :=
  if pystr_eqb code sample_bad_code then SyntaxError sample_syntax_error
  else Parsed.

(** A code with a NUL character in it. *)
Definition sample_nul_code : pystr := lit "x = " ++ [0%N].

(** A parser that raises [ValueError] on a NUL character, as [ast.parse]
    does up to Python 3.11, and parses every other text. *)
Definition sample_nul_parse (code : pystr) : parsed :=
  if existsb (N.eqb 0) code then
    ParseRaised (PyException "ValueError"
                   (lit "source code string cannot contain null bytes"))
  else Parsed.

(** A response whose only block is tagged [C]. *)
Definition sample_c_block : pystr := lit "```C" ++ [NEWLINE] ++ lit "foo```".
(** The same block tagged [C++]. *)
Definition sample_cpp_block : pystr :=
  lit "```C++" ++ [NEWLINE] ++ lit "foo```".

(** ** The button of the page *)

(** What the page shows: the calls to Streamlit, in order. *)
Inductive element :=
  | st_warning (body : pystr)
  | st_spinner (text : pystr)
  | st_error (body : pystr)
  | st_subheader (body : pystr)
  | st_markdown (body : pystr) (unsafe_allow_html : bool).

(** The truth value of a string: the empty string is false. *)
Definition truthy_str (s : pystr) : bool :=
  match s with [] => false | _ :: _ => true end.

(** The body of [if st.button(...)]: what a click on the button shows for
    the chosen language and the text of the editor. *)
Definition on_analyze (v : interpreter) (llm_invoke : pystr -> invoked)
    (ast_parse : pystr -> parsed) (language code_input : pystr)
    : py (list element) :=
  if negb (truthy_str (strip code_input)) then
    mret [st_warning (lit "Please enter code to analyze")]
  else
    let state : gmap string pystr :=
      {[ "language" := language; "code" := code_input;
         "review" := []; "error" := [] ]} in
    result ← review_code v llm_invoke ast_parse state;
    error ← getitem result "error";
    if truthy_str error then
      error' ← getitem result "error";
      mret [st_spinner (lit "Analyzing code...");
            st_error (lit "Error: " ++ error')]
    else
      review ← getitem result "review";
      mret [st_spinner (lit "Analyzing code...");
            st_subheader (lit "Analysis Results");
            st_markdown review true].

(** The backtick, of which a fence is made. *)
Definition BACKTICK : N := 96%N.

(** The prompt up to the fence that opens the block of the code. *)
Definition prompt_head (language : pystr) : pystr :=
  lit "### Code Review Task for " ++ language ++ [NEWLINE]
  ++ lit "Analyze this code for errors, correct them while preserving indentation, "
  ++ [NEWLINE]
  ++ lit "then create an optimized version. Follow this format:" ++ [NEWLINE]
  ++ [NEWLINE]
  ++ lit "**Issues:** List problems found" ++ [NEWLINE]
  ++ lit "**Corrected Code (Preserve Indentation):** " ++ language
  ++ lit " code block with fixes" ++ [NEWLINE]
  ++ lit "**Optimized Code:** " ++ language
  ++ lit " code block with improvements" ++ [NEWLINE]
  ++ lit "**Explanation:** Benefits of optimizations" ++ [NEWLINE]
  ++ [NEWLINE]
  ++ lit "Original Code:" ++ [NEWLINE].

(** [h] stands in [s] right after a newline. *)
Definition after_newline (h s : pystr) : Prop :=
  exists pre post, s = pre ++ [NEWLINE] ++ h ++ post.

(** ** The language [C++] from Python 3.11 on *)

(** The letter C. *)
Definition LETTER_C : N := 67%N.

(** A tag made of one C or more. *)
Definition c_tag (n : nat) : pystr := repeat LETTER_C (S n).

(** What the pattern of [extract_code_blocks] compiles to for the language
    [C++] from Python 3.11 on: the fence, one C or more with none given
    back, the newline, the group and the closing fence. *)
Definition cpp_prog : list op :=
  lits fence
  ++ [ORepeat QPlus Possessive (ALit LETTER_C); OAtom (ALit NEWLINE);
      OOpen 1; ORepeat QStar Lazy ADot; OClose 1]
  ++ lits fence.

(** The number of C a text starts with. *)
Fixpoint c_run (s : pystr) : nat :=
  match s with
  | c :: s' => if N.eqb LETTER_C c then S (c_run s') else 0
  | [] => 0
  end.

(** The text starts with the opening line of a block whose tag is a run of
    C: the number of C after the first. *)
Definition c_opening (s : pystr) : option nat :=
  if startswith fence s then
    match c_run (drop 3 s) with
    | S n =>
        if startswith [NEWLINE] (drop (S n) (drop 3 s)) then Some n else None
    | 0 => None
    end
  else None.

(** The text starts with such a block: the lengths of its opening line and
    of its body. *)
Definition c_block_here (s : pystr) : option (nat * nat) :=
  n ← c_opening s;
  let len := length (opening (c_tag n)) in
  m ← find fence (drop len s);
  Some (len, m).

(** The first place where such a block starts, with the two lengths. *)
Fixpoint scan_c_block (s : pystr) : option (nat * nat * nat) :=
  match c_block_here s with
  | Some (len, m) => Some (0, len, m)
  | None =>
      match s with
      | _ :: s' =>
          match scan_c_block s' with
          | Some (a, len, m) => Some (S a, len, m)
          | None => None
          end
      | [] => None
      end
  end.

(** The block a scan for a tag of C finds, trimmed. *)
Definition find_c_block (response : pystr) : option pystr :=
  match scan_c_block response with
  | Some (a, len, m) => Some (strip (take m (drop (a + len) response)))
  | None => None
  end.

(** The first block among those whose tag is a run of C: none opens
    further left, and none that opens at the same place closes earlier. *)
Definition first_c_block (response body : pystr) : Prop :=
  exists n pre post,
    block_at response (c_tag n) pre body post /\
    forall n' pre' body' post',
      block_at response (c_tag n') pre' body' post' ->
      length pre <= length pre' /\
      (length pre' = length pre -> length body <= length body').

(** What [extract_code_blocks] returns for the language [C++] from Python
    3.11 on, as a statement: both slots hold the trimmed text of the first
    block whose tag is a run of C, or both are [None] and no block has such
    a tag. *)
Definition both_first_c_block (response : pystr) : Prop :=
  (exists body, first_c_block response body /\
     extract_code_blocks Py3_11 response (lit "C++") =
     Ret (Some (strip body), Some (strip body))) \/
  ((forall n, ~ has_block response (c_tag n)) /\
     extract_code_blocks Py3_11 response (lit "C++") = Ret (None, None)).

(** ** Python strings: lemmas *)

Lemma startswith_app (w post : pystr) : startswith w (w ++ post) = true.
Proof.
  induction w as [|x w IH]; simpl; [reflexivity|].
  rewrite N.eqb_refl. exact IH.
Qed.

Lemma startswith_split (w s : pystr) :
  startswith w s = true -> s = w ++ drop (length w) s.
Proof.
  revert s. induction w as [|x w IH]; intros s H; simpl in *.
  - reflexivity.
  - destruct s as [|y s]; [discriminate|].
    apply andb_true_iff in H as [Hx Hw]. apply N.eqb_eq in Hx. subst y.
    simpl. f_equal. apply IH, Hw.
Qed.

Lemma startswith_iff (w s : pystr) :
  startswith w s = true <-> exists post, s = w ++ post.
Proof.
  split.
  - intros H. eexists. apply startswith_split, H.
  - intros [post ->]. apply startswith_app.
Qed.

Lemma find_Some (w s : pystr) (n : nat) :
  find w s = Some n ->
  exists pre post, s = pre ++ w ++ post /\ length pre = n /\
    forall pre' post', s = pre' ++ w ++ post' -> n <= length pre'.
Proof.
  revert n. induction s as [|c s IH]; intros n; simpl.
  - destruct (startswith w []) eqn:E; [|discriminate].
    intros [= <-]. apply startswith_iff in E as [post E].
    exists [], post. repeat split; [exact E | lia].
  - destruct (startswith w (c :: s)) eqn:E.
    + intros [= <-]. apply startswith_iff in E as [post E].
      exists [], post. repeat split; [exact E | lia].
    + destruct (find w s) as [m|] eqn:F; [|discriminate].
      simpl. intros [= <-].
      destruct (IH m eq_refl) as (pre & post & -> & Hlen & Hmin).
      exists (c :: pre), post. repeat split; [simpl; lia|].
      intros pre' post' H. destruct pre' as [|c' pre'].
      * simpl in H. rewrite H, startswith_app in E. discriminate.
      * simpl in H. injection H as _ H. apply Hmin in H. simpl. lia.
Qed.

Lemma find_None (w s : pystr) :
  find w s = None -> forall pre post, s <> pre ++ w ++ post.
Proof.
  induction s as [|c s IH]; simpl.
  - destruct (startswith w []) eqn:E; [discriminate|].
    intros _ pre post H. destruct pre as [|c' pre]; [|discriminate].
    simpl in H. rewrite H, startswith_app in E. discriminate.
  - destruct (startswith w (c :: s)) eqn:E; [discriminate|].
    destruct (find w s) eqn:F; [discriminate|]. intros _ pre post H.
    destruct pre as [|c' pre].
    + simpl in H. rewrite H, startswith_app in E. discriminate.
    + simpl in H. injection H as _ H. exact (IH eq_refl _ _ H).
Qed.

Lemma find_occurs (w pre post : pystr) :
  exists n, find w (pre ++ w ++ post) = Some n /\ n <= length pre.
Proof.
  destruct (find w (pre ++ w ++ post)) as [n|] eqn:F.
  - exists n. split; [reflexivity|].
    destruct (find_Some _ _ _ F) as (_ & _ & _ & _ & Hmin).
    exact (Hmin pre post eq_refl).
  - exfalso. exact (find_None _ _ F pre post eq_refl).
Qed.

Lemma last_prev_app (prev : option N) (a b : pystr) :
  last_prev prev (a ++ b) = last_prev (last_prev prev a) b.
Proof. revert prev. induction a as [|c a IH]; intros prev; simpl; auto. Qed.

Lemma ends_line_iff (pre : pystr) :
  at_beginning RE_MULTILINE (last_prev None pre) = true <-> ends_line pre.
Proof.
  unfold ends_line. destruct pre as [|c pre _] using rev_ind.
  - simpl. split; auto.
  - rewrite last_prev_app. simpl. split.
    + intros H. apply N.eqb_eq in H. subst c. right. eauto.
    + intros [H | [pre' H]].
      * destruct pre; discriminate.
      * apply app_inj_tail in H as [_ ->]. reflexivity.
Qed.

(** ** The matcher on literal text *)

Section Matcher.
Variable fl : re_flags.

Lemma run_lits (w : pystr) (p : list op) prev i rest ms :
  run fl (lits w ++ p) prev i rest ms =
  if startswith w rest
  then run fl p (last_prev prev w) (i + length w) (drop (length w) rest) ms
  else None.
Proof.
  revert prev i rest. induction w as [|x w IH]; intros prev i rest; simpl.
  - rewrite Nat.add_0_r. reflexivity.
  - destruct rest as [|c rest]; simpl; [reflexivity|].
    destruct (N.eqb_spec x c) as [->|Hne]; simpl; [|reflexivity].
    rewrite IH. replace (S i + length w) with (i + S (length w)) by lia.
    reflexivity.
Qed.

Lemma run_bol_lits (h : pystr) prev i rest :
  run fl (OBol :: lits h) prev i rest [] =
  if at_beginning fl prev && startswith h rest
  then Some (i + length h, []) else None.
Proof.
  simpl. destruct (at_beginning fl prev); simpl; [|reflexivity].
  rewrite <- (app_nil_r (lits h)), run_lits. reflexivity.
Qed.

Lemma search_bol_Some (h : pystr) prev i rest x :
  search_from fl (OBol :: lits h) prev i rest = Some x ->
  exists pre post, rest = pre ++ h ++ post /\
    at_beginning fl (last_prev prev pre) = true.
Proof.
  revert prev i. induction rest as [|c rest IH]; intros prev i;
    cbn [search_from]; rewrite run_bol_lits;
    destruct (at_beginning fl prev && startswith h _) eqn:E.
  - intros _. apply andb_true_iff in E as [Hb Hs].
    apply startswith_iff in Hs as [post Hs]. exists [], post. auto.
  - discriminate.
  - intros _. apply andb_true_iff in E as [Hb Hs].
    apply startswith_iff in Hs as [post Hs]. exists [], post. auto.
  - intros H. apply IH in H as (pre & post & -> & Hb).
    exists (c :: pre), post. auto.
Qed.

Lemma search_bol_None (h : pystr) prev i rest :
  search_from fl (OBol :: lits h) prev i rest = None ->
  forall pre post, rest = pre ++ h ++ post ->
    at_beginning fl (last_prev prev pre) = false.
Proof.
  revert prev i. induction rest as [|c rest IH]; intros prev i;
    cbn [search_from]; rewrite run_bol_lits;
    destruct (at_beginning fl prev && startswith h _) eqn:E;
    try discriminate; intros H pre post Hrest.
  - destruct pre as [|c' pre]; [|discriminate]. simpl in *.
    rewrite Hrest, startswith_app, andb_true_r in E. exact E.
  - destruct pre as [|c' pre]; simpl in *.
    + rewrite Hrest, startswith_app, andb_true_r in E. exact E.
    + injection Hrest as -> Hrest. exact (IH _ _ H _ _ Hrest).
Qed.
End Matcher.

Lemma hit_iff (h s : pystr) : hit h s = true <-> at_line_start h s.
Proof.
  unfold hit, at_line_start.
  destruct (search_from RE_MULTILINE (OBol :: lits h) None 0 s) as [x|] eqn:E;
    simpl; split; try discriminate; try reflexivity.
  - intros _. apply search_bol_Some in E as (pre & post & Hs & Hb).
    exists pre, post. split; [exact Hs | apply ends_line_iff, Hb].
  - intros (pre & post & Hs & Hb). apply ends_line_iff in Hb.
    rewrite (search_bol_None _ _ _ _ _ E _ _ Hs) in Hb. discriminate.
Qed.

(** ** The format validator *)

(** Each required pattern compiles, in both grammars, to the start anchor
    followed by the text of its header. *)
Lemma required_sections_compile (v : interpreter) :
  List.map (fun section => parse v section 0 0 [] []) required_sections =
  List.map (fun h => Compiled (OBol :: lits h) 0) headers.
Proof. destruct v; vm_compute; reflexivity. Qed.

Lemma re_search_compiled (v : interpreter) (pat s : pystr) (fl : re_flags)
    prog g :
  parse v pat 0 0 [] [] = Compiled prog g ->
  re_search v pat s fl =
  Ret (pattern_search {| p_prog := prog; p_flags := fl; p_groups := g |} s).
Proof. intros H. unfold re_search, re_compile. rewrite H. reflexivity. Qed.

Lemma py_all_search (v : interpreter) (response : pystr)
    (sections hs : list pystr) :
  List.map (fun section => parse v section 0 0 [] []) sections =
  List.map (fun h => Compiled (OBol :: lits h) 0) hs ->
  py_all (fun section =>
            m ← re_search v section response RE_MULTILINE; mret (truthy m))
         sections
  = Ret (forallb (fun h => hit h response) hs).
Proof.
  revert hs. induction sections as [|s sections IH]; intros [|h hs] H;
    try discriminate; [reflexivity|].
  injection H as Hs H. cbn [py_all forallb].
  rewrite (re_search_compiled _ _ _ _ _ _ Hs).
  unfold pattern_search, hit at 1; cbn [p_flags p_prog].
  destruct (search_from RE_MULTILINE (OBol :: lits h) None 0 response)
    as [[[b e] ms]|]; cbn; [|reflexivity].
  exact (IH _ H).
Qed.

Lemma validate_response_format_hits (v : interpreter) (response : pystr) :
  validate_response_format v response =
  Ret (forallb (fun h => hit h response) headers).
Proof. apply py_all_search, required_sections_compile. Qed.

Lemma hits_iff (response : pystr) :
  forallb (fun h => hit h response) headers = true <-> has_all_headers response.
Proof.
  unfold has_all_headers. rewrite forallb_forall, List.Forall_forall.
  split; intros H h Hin; apply hit_iff, H, Hin.
Qed.

(** C5. [validate_response_format] returns, and it returns true exactly
    when each of the four bolded headers stands at the start of some line
    of the response; the four are looked for one by one, so the order in
    which they stand plays no part. *)
Theorem validate_response_format_iff (v : interpreter) (response : pystr) :
  exists b, validate_response_format v response = Ret b /\
            (b = true <-> has_all_headers response).
Proof.
  exists (forallb (fun h => hit h response) headers). split.
  - apply validate_response_format_hits.
  - apply hits_iff.
Qed.

(** ** The parser on plain text *)

Lemma plain_classify (c : N) :
  plain c = true ->
  (c =? 41)%N = false /\ (c =? 92)%N = false /\ classify c = TLiteral.
Proof.
  unfold plain, classify. cbn [SPECIAL_CHARS lit existsb].
  change (existsb (N.eqb c) SPECIAL_CHARS)
    with (existsb (N.eqb c) [46; 92; 91; 123; 40; 41; 42; 43; 63; 94; 36; 124]%N).
  cbn [existsb]. intros H. apply negb_true_iff in H.
  repeat (apply orb_false_iff in H as [? H]).
  repeat match goal with E : (c =? _)%N = false |- _ => rewrite E; clear E end.
  auto.
Qed.

Lemma lits_app (a b : pystr) : lits (a ++ b) = lits a ++ lits b.
Proof. apply List.map_app. Qed.

Lemma lone_backslash_plain (w tail : pystr) :
  Forall (fun c => plain c = true) w -> lone_backslash tail = false ->
  lone_backslash (w ++ tail) = false.
Proof.
  intros Hw Ht. destruct Hw as [|c w Hc Hw]; [exact Ht|].
  apply plain_classify in Hc as (_ & Hc & _). simpl.
  destruct (w ++ tail); [exact Hc | reflexivity].
Qed.

Lemma parse_plain (v : interpreter) (w tail : pystr) pos g opened acc :
  Forall (fun c => plain c = true) w -> lone_backslash tail = false ->
  parse v (w ++ tail) pos g opened acc =
  parse v tail (pos + length w) g opened (rev (lits w) ++ acc).
Proof.
  intros Hw Ht. revert pos acc.
  induction Hw as [|c w Hc Hw IH]; intros pos acc.
  - simpl. rewrite Nat.add_0_r. reflexivity.
  - pose proof (lone_backslash_plain _ _ Hw Ht) as Hl.
    apply plain_classify in Hc as (H41 & H92 & Hcl).
    cbn [app parse]. rewrite H41, H92, Hl, Hcl. cbn [andb].
    rewrite IH. cbn [lits List.map rev length]. rewrite <- app_assoc.
    replace (pos + 1 + length w) with (pos + S (length w)) by lia.
    reflexivity.
Qed.

Lemma parse_block_tail (v : interpreter) (pos : nat) (acc : list op) :
  parse v (lit "\n(.*?)```") pos 0 [] acc =
  Compiled (rev acc ++ lits [NEWLINE]
            ++ [OOpen 1; ORepeat QStar Lazy ADot; OClose 1] ++ lits fence) 1.
Proof.
  change (lit "\n(.*?)```") with [92; 110; 40; 46; 42; 63; 41; 96; 96; 96]%N.
  change (lits [NEWLINE]) with [OAtom (ALit 10%N)].
  change (lits fence)
    with [OAtom (ALit 96%N); OAtom (ALit 96%N); OAtom (ALit 96%N)].
  destruct v; simpl; rewrite <- ?app_assoc; reflexivity.
Qed.

Lemma block_pattern_compiles (v : interpreter) (language : pystr) :
  Forall (fun c => plain c = true) language ->
  parse v (block_pattern language) 0 0 [] [] = Compiled (block_prog language) 1.
Proof.
  intros Hl. unfold block_pattern. rewrite app_assoc.
  assert (Hf : Forall (fun c => plain c = true) (lit "```" ++ language)).
  { apply Forall_app; split; [|exact Hl]. repeat constructor. }
  rewrite (parse_plain v _ (lit "\n(.*?)```") 0 0 [] [] Hf eq_refl).
  rewrite parse_block_tail, app_nil_r, rev_involutive.
  unfold block_prog, opening. fold fence.
  rewrite !lits_app, <- !app_assoc. reflexivity.
Qed.

(** ** The matcher on the pattern of a block *)

Lemma find_drop_None (w s : pystr) (n : nat) :
  find w s = None -> find w (drop n s) = None.
Proof.
  intros H. destruct (find w (drop n s)) as [m|] eqn:F; [|reflexivity].
  exfalso. apply find_Some in F as (pre & post & F & _).
  apply (find_None _ _ H (take n s ++ pre) post).
  rewrite <- app_assoc, <- F. symmetry. apply take_drop.
Qed.

Section BlockMatch.
Variable language : pystr.
Abbreviation op_len := (length (opening language)).

Lemma run_close_fence prev j r ms :
  run RE_DOTALL (OClose 1 :: lits fence) prev j r ms =
  if startswith fence r then Some (j + length fence, (1, true, j) :: ms)
  else None.
Proof.
  cbn [run]. rewrite <- (app_nil_r (lits fence)), run_lits.
  destruct (startswith fence r); reflexivity.
Qed.

Lemma star_lazy_fence prev j r ms :
  star_lazy RE_DOTALL ADot (run RE_DOTALL (OClose 1 :: lits fence))
    prev j r ms =
  match find fence r with
  | Some n => Some (j + n + length fence, (1, true, j + n) :: ms)
  | None => None
  end.
Proof.
  revert prev j. induction r as [|c r IH]; intros prev j;
    cbn [star_lazy find]; rewrite run_close_fence.
  - destruct (startswith fence []); places.
  - destruct (startswith fence (c :: r)); [places|].
    cbn [atom_ok RE_DOTALL DOTALL orb]. rewrite IH.
    destruct (find fence r) as [n|]; cbn [fmap option_fmap option_map];
      places.
Qed.

Lemma run_block prev i rest :
  run RE_DOTALL (block_prog language) prev i rest [] =
  if startswith (opening language) rest then
    match find fence (drop op_len rest) with
    | Some n => Some (i + op_len + n + length fence,
                      [(1, true, i + op_len + n); (1, false, i + op_len)])
    | None => None
    end
  else None.
Proof.
  unfold block_prog. rewrite run_lits.
  destruct (startswith (opening language) rest); [|reflexivity].
  cbn [app run star]. apply star_lazy_fence.
Qed.

(** The search stops at the first opening line: when no fence closes it,
    none closes a later one either. *)
Lemma search_block prev i rest :
  search_from RE_DOTALL (block_prog language) prev i rest =
  match find (opening language) rest with
  | Some a =>
      match find fence (drop (a + op_len) rest) with
      | Some n => Some (i + a, i + a + op_len + n + length fence,
                        [(1, true, i + a + op_len + n);
                         (1, false, i + a + op_len)])
      | None => None
      end
  | None => None
  end.
Proof.
  revert prev i. induction rest as [|c rest IH]; intros prev i;
    cbn [search_from find]; rewrite run_block.
  - destruct (startswith (opening language) []); [|reflexivity].
    cbn [Nat.add]. destruct (find fence (drop op_len [])); places.
  - destruct (startswith (opening language) (c :: rest)).
    + cbn [Nat.add].
      destruct (find fence (drop op_len (c :: rest))) as [n|] eqn:F;
        [places|].
      rewrite IH. destruct (find (opening language) rest) as [a|];
        [|reflexivity].
      replace (drop (a + op_len) rest)
        with (drop (S a) (drop op_len (c :: rest))).
      * rewrite (find_drop_None _ _ _ F). reflexivity.
      * rewrite drop_drop. replace (op_len + S a) with (S (a + op_len))
          by lia. reflexivity.
    + rewrite IH. destruct (find (opening language) rest) as [a|];
        cbn [fmap option_fmap option_map]; [|reflexivity].
      change (drop (S a + op_len) (c :: rest)) with (drop (a + op_len) rest).
      destruct (find fence (drop (a + op_len) rest)) as [n|]; places.
Qed.
End BlockMatch.

(** ** The extractor *)

Lemma pattern_search_block (response language : pystr) :
  stripped_group
    (pattern_search {| p_prog := block_prog language; p_flags := RE_DOTALL;
                       p_groups := 1 |} response)
  = Ret (find_block response language).
Proof.
  unfold pattern_search, find_block. cbn [p_flags p_prog p_groups].
  rewrite search_block.
  destruct (find (opening language) response) as [a|]; [|reflexivity].
  cbn [mbind option_bind].
  destruct (find fence (drop (a + length (opening language)) response))
    as [n|]; [|reflexivity].
  cbn [stripped_group mbind option_bind]. unfold group.
  cbn [m_marks m_string find_mark Nat.eqb Bool.eqb andb Nat.add].
  match goal with
  | |- context [take (?x + n - ?x)] => replace (x + n - x) with n by lia
  end.
  reflexivity.
Qed.

Lemma extract_code_blocks_plain (v : interpreter) (response language : pystr) :
  Forall (fun c => plain c = true) language ->
  extract_code_blocks v response language =
  Ret (find_block response language, find_block response language).
Proof.
  intros Hl. unfold extract_code_blocks, re_compile.
  rewrite (block_pattern_compiles v _ Hl). cbn [mbind py_bind].
  rewrite pattern_search_block. reflexivity.
Qed.

Lemma find_block_Some (response language b : pystr) :
  find_block response language = Some b ->
  exists body, first_block response language body /\ b = strip body.
Proof.
  unfold find_block.
  destruct (find (opening language) response) as [a|] eqn:Fa; [|discriminate].
  cbn [mbind option_bind].
  destruct (find fence (drop (a + length (opening language)) response))
    as [n|] eqn:Fn; [|discriminate].
  cbn [mbind option_bind]. intros [= <-].
  apply find_Some in Fa as (pre & rest & Hr & Hlen & Hmin).
  assert (Hd : drop (a + length (opening language)) response = rest).
  { rewrite Hr, app_assoc, <- Hlen, <- length_app. apply drop_app_length. }
  rewrite Hd in *.
  apply find_Some in Fn as (body & post & Hb & Hlb & Hminb).
  exists body. split.
  - exists pre, post. split; [unfold block_at; rewrite Hr, Hb; reflexivity|].
    intros pre' body' post' H'. unfold block_at in H'. split.
    + rewrite Hlen. exact (Hmin _ _ H').
    + intros Hsame. rewrite Hlb. apply (Hminb body' post').
      rewrite Hr in H'. apply app_inj_1 in H' as [_ H']; [|lia].
      apply app_inv_head in H'. exact H'.
  - change (strip (take n (drop (a + length (opening language)) response))
            = strip body).
    rewrite Hd, Hb, <- Hlb, take_app_length. reflexivity.
Qed.

Lemma find_block_None (response language : pystr) :
  find_block response language = None -> ~ has_block response language.
Proof.
  unfold find_block. intros H (pre & body & post & Hb). unfold block_at in Hb.
  destruct (find_occurs (opening language) pre (body ++ fence ++ post))
    as (a & Fa & Hle).
  rewrite <- Hb in Fa. rewrite Fa in H. cbn [mbind option_bind] in H.
  set (k := a + length (opening language)) in *.
  set (m := length pre + length (opening language) + length body).
  assert (Hm : drop m response = fence ++ post).
  { rewrite Hb.
    replace (pre ++ opening language ++ body ++ fence ++ post)
      with ((pre ++ opening language ++ body) ++ fence ++ post)
      by (rewrite <- !app_assoc; reflexivity).
    replace m with (length (pre ++ opening language ++ body))
      by (rewrite !length_app; unfold m; lia).
    apply drop_app_length. }
  assert (Hk : drop k response =
               take (m - k) (drop k response) ++ fence ++ post).
  { rewrite <- Hm.
    replace (drop m response) with (drop (m - k) (drop k response)).
    - symmetry. apply take_drop.
    - rewrite drop_drop. f_equal. unfold m, k. lia. }
  destruct (find fence (drop k response)) as [n|] eqn:Fn; [discriminate|].
  exact (find_None _ _ Fn _ _ Hk).
Qed.

Lemma first_block_unique (response language body body' : pystr) :
  first_block response language body ->
  first_block response language body' -> body = body'.
Proof.
  intros (pre & post & Hb & Hmin) (pre' & post' & Hb' & Hmin').
  destruct (Hmin _ _ _ Hb') as [Hle Hbody].
  destruct (Hmin' _ _ _ Hb) as [Hle' Hbody'].
  assert (Hlen : length pre = length pre') by lia.
  specialize (Hbody (eq_sym Hlen)). specialize (Hbody' Hlen).
  unfold block_at in Hb, Hb'. rewrite Hb in Hb'.
  apply app_inj_1 in Hb' as [_ Hb']; [|exact Hlen].
  apply app_inv_head in Hb'.
  apply app_inj_1 in Hb' as [Hb' _]; [exact Hb' | lia].
Qed.

Lemma find_block_first (response language body : pystr) :
  first_block response language body ->
  find_block response language = Some (strip body).
Proof.
  intros Hf. destruct (find_block response language) as [b|] eqn:E.
  - apply find_block_Some in E as (body' & Hf' & ->).
    rewrite (first_block_unique _ _ _ _ Hf Hf'). reflexivity.
  - exfalso. apply (find_block_None _ _ E).
    destruct Hf as (pre & post & Hb & _). exists pre, body, post. exact Hb.
Qed.

(** ** The language test *)

Lemma pystr_eqb_eq (a b : pystr) : pystr_eqb a b = true <-> a = b.
Proof.
  revert b. induction a as [|x a IH]; intros [|y b]; simpl;
    split; try discriminate; try reflexivity.
  - intros H. apply andb_true_iff in H as [Hx Hab].
    apply N.eqb_eq in Hx. apply IH in Hab. congruence.
  - intros [= -> ->]. rewrite N.eqb_refl. apply IH. reflexivity.
Qed.

(** A special character is its own lower case, and no letter of
    [python]. *)
Lemma special_lower (c : N) :
  plain c = false -> lower_cp c = [c] /\ ~ In c (lit "python").
Proof.
  unfold plain. intros H. apply negb_false_iff, existsb_exists in H.
  destruct H as (x & Hin & Hx). apply N.eqb_eq in Hx. subst x.
  change SPECIAL_CHARS
    with [46; 92; 91; 123; 40; 41; 42; 43; 63; 94; 36; 124]%N in Hin.
  change (lit "python") with [112; 121; 116; 104; 111; 110]%N.
  cbn [In] in *.
  repeat (destruct Hin as [<-|Hin]; [split; [reflexivity|intuition lia]|]).
  contradiction.
Qed.

(** Only plain text lowers to [python]. *)
Lemma lower_python_plain (language : pystr) :
  pystr_eqb (lower language) (lit "python") = true ->
  Forall (fun c => plain c = true) language.
Proof.
  intros H. apply pystr_eqb_eq in H. apply List.Forall_forall. intros c Hc.
  destruct (plain c) eqn:E; [reflexivity|]. exfalso.
  apply special_lower in E as [El Hn]. apply Hn. rewrite <- H.
  unfold lower. apply in_flat_map. exists c. split; [exact Hc|].
  rewrite El. left. reflexivity.
Qed.

(** ** Groups always take part *)

Section Marks.
Variable fl : re_flags.
Variable P : nat * marks -> Prop.

Lemma one_inv a k prev i rest ms r :
  (forall prev i rest, k prev i rest ms = Some r -> P r) ->
  one fl a k prev i rest ms = Some r -> P r.
Proof.
  intros Hk. unfold one. destruct rest as [|c rest]; [discriminate|].
  destruct (atom_ok fl a c); [apply Hk | discriminate].
Qed.

Lemma star_inv a k m prev i rest ms r :
  (forall prev i rest, k prev i rest ms = Some r -> P r) ->
  star fl a k m prev i rest ms = Some r -> P r.
Proof.
  intros Hk. revert prev i.
  destruct m; induction rest as [|c rest IH]; intros prev i; simpl.
  - apply Hk.
  - destruct (atom_ok fl a c); [|apply Hk].
    destruct (star_greedy fl a k (Some c) (S i) rest ms) eqn:E.
    + intros [= <-]. exact (IH _ _ E).
    + apply Hk.
  - destruct (k prev i [] ms) eqn:E; [|discriminate].
    intros [= <-]. exact (Hk _ _ _ E).
  - destruct (k prev i (c :: rest) ms) eqn:E.
    + intros [= <-]. exact (Hk _ _ _ E).
    + destruct (atom_ok fl a c); [apply IH | discriminate].
  - apply Hk.
  - destruct (atom_ok fl a c); [apply IH | apply Hk].
Qed.

Lemma opt_inv a k m prev i rest ms r :
  (forall prev i rest, k prev i rest ms = Some r -> P r) ->
  opt fl a k m prev i rest ms = Some r -> P r.
Proof.
  intros Hk. destruct m; unfold opt.
  - destruct (one fl a k prev i rest ms) eqn:E.
    + intros [= <-]. exact (one_inv _ _ _ _ _ _ _ Hk E).
    + apply Hk.
  - destruct (k prev i rest ms) eqn:E.
    + intros [= <-]. exact (Hk _ _ _ E).
    + apply one_inv, Hk.
  - destruct rest as [|c rest]; [apply Hk|].
    destruct (atom_ok fl a c); apply Hk.
Qed.
End Marks.

Lemma find_mark_cons g b g' b' i ms :
  is_Some (find_mark g b ms) -> is_Some (find_mark g b ((g', b', i) :: ms)).
Proof.
  intros H. cbn [find_mark].
  destruct (Nat.eqb g g' && Bool.eqb b b'); [eauto | exact H].
Qed.

Lemma find_mark_here g b i ms : is_Some (find_mark g b ((g, b, i) :: ms)).
Proof.
  cbn [find_mark]. rewrite Nat.eqb_refl, Bool.eqb_reflx. cbn. eauto.
Qed.

(** A match has set every mark of the pattern. *)
Lemma run_marks (fl : re_flags) (prog : list op) prev i rest ms e ms' :
  run fl prog prev i rest ms = Some (e, ms') ->
  forall g b, In (g, b) (marks_of prog) \/ is_Some (find_mark g b ms) ->
              is_Some (find_mark g b ms').
Proof.
  revert prev i rest ms.
  induction prog as [|o prog IH]; intros prev i rest ms H g b Hg.
  - injection H as _ <-. destruct Hg as [[]|Hg]. exact Hg.
  - pose (P := fun r : nat * marks => is_Some (find_mark g b (snd r))).
    change (P (e, ms')).
    assert (Hk : In (g, b) (marks_of prog) \/ is_Some (find_mark g b ms) ->
               forall prev i rest,
               run fl prog prev i rest ms = Some (e, ms') -> P (e, ms')).
    { intros Hg' prev' i' rest' H'. exact (IH _ _ _ _ H' g b Hg'). }
    destruct o as [a| |q m a|g'|g']; cbn [run marks_of] in H, Hg.
    + exact (one_inv fl P _ _ _ _ _ _ _ (Hk Hg) H).
    + destruct (at_beginning fl prev); [|discriminate]. exact (Hk Hg _ _ _ H).
    + destruct q.
      * exact (star_inv fl P _ _ _ _ _ _ _ _ (Hk Hg) H).
      * refine (one_inv fl P _ _ _ _ _ _ _ _ H).
        intros prev' i' rest'. apply star_inv, Hk, Hg.
      * exact (opt_inv fl P _ _ _ _ _ _ _ _ (Hk Hg) H).
    + apply (IH _ _ _ _ H). destruct Hg as [[[= <- <-]|Hg]|Hg]; auto.
      * right. apply find_mark_here.
      * right. apply find_mark_cons, Hg.
    + apply (IH _ _ _ _ H). destruct Hg as [[[= <- <-]|Hg]|Hg]; auto.
      * right. apply find_mark_here.
      * right. apply find_mark_cons, Hg.
Qed.

Lemma search_from_marks (fl : re_flags) (prog : list op) prev i rest b e ms :
  search_from fl prog prev i rest = Some (b, e, ms) ->
  forall g c, In (g, c) (marks_of prog) -> is_Some (find_mark g c ms).
Proof.
  revert prev i. induction rest as [|x rest IH]; intros prev i;
    cbn [search_from];
    destruct (run fl prog prev i _ []) as [[e' ms']|] eqn:E;
    try discriminate.
  - intros [= <- <- <-] g c Hg. eapply run_marks; eauto.
  - intros [= <- <- <-] g c Hg. eapply run_marks; eauto.
  - apply IH.
Qed.

(** When the pattern holds group 1, taking its text never fails. *)
Lemma stripped_group_returns (p : pattern_obj) (s : pystr) :
  In (1, false) (marks_of (p_prog p)) -> In (1, true) (marks_of (p_prog p)) ->
  exists r, stripped_group (pattern_search p s) = Ret r.
Proof.
  intros Ho Hc. unfold pattern_search.
  destruct (search_from (p_flags p) (p_prog p) None 0 s) as [[[b e] ms]|] eqn:E;
    [|eexists; reflexivity].
  cbn [stripped_group]. unfold group. cbn [m_marks m_string].
  destruct (search_from_marks _ _ _ _ _ _ _ _ E 1 false Ho) as [x ->].
  destruct (search_from_marks _ _ _ _ _ _ _ _ E 1 true Hc) as [y ->].
  eexists; reflexivity.
Qed.

(** ** The pipeline *)

Lemma checked_code_Some (language response code : pystr) :
  checked_code language response = Some code <->
  pystr_eqb (lower language) (lit "python") = true /\
  exists body, first_block response language body /\
               strip body <> [] /\ code = strip body.
Proof.
  unfold checked_code. split.
  - destruct (pystr_eqb (lower language) (lit "python")); [|discriminate].
    destruct (find_block response language) as [[|c b]|] eqn:E;
      try discriminate.
    intros [= <-]. split; [reflexivity|].
    apply find_block_Some in E as (body & Hf & E). exists body.
    rewrite <- E. split; [exact Hf|]. split; [discriminate | reflexivity].
  - intros (-> & body & Hf & Hne & ->).
    rewrite (find_block_first _ _ _ Hf).
    destruct (strip body); [contradiction | reflexivity].
Qed.

(** The syntax step returns nothing or an annotation, or raises what the
    parser raised on the code it checked. *)
Lemma syntax_note_cases (ast_parse : pystr -> parsed)
    (language response : pystr) :
  match syntax_note ast_parse language response with
  | Ret note => note = [] \/ exists e, note = annotation e
  | Raise x => parser_raises ast_parse language response x
  | Unmodelled => False
  end.
Proof.
  unfold syntax_note, validate_python_syntax.
  destruct (checked_code language response) as [code|] eqn:E;
    [|left; reflexivity].
  destruct (ast_parse code) as [|e|x] eqn:Ea.
  - left. reflexivity.
  - right. exists e. reflexivity.
  - apply checked_code_Some in E as (Hpy & body & Hf & Hne & ->).
    split; [exact Hpy|]. exists body. auto.
Qed.

Lemma syntax_note_raises (ast_parse : pystr -> parsed)
    (language response : pystr) (x : exn) :
  parser_raises ast_parse language response x ->
  syntax_note ast_parse language response = Raise x.
Proof.
  intros (Hpy & body & Hf & Hne & Hx). unfold syntax_note.
  assert (E : checked_code language response = Some (strip body))
    by (apply checked_code_Some; eauto 6).
  rewrite E. unfold validate_python_syntax. rewrite Hx. reflexivity.
Qed.

(** When the parser raises nothing of its own, the syntax step returns. *)
Lemma syntax_note_returns (ast_parse : pystr -> parsed)
    (language response : pystr) :
  (forall x, ~ parser_raises ast_parse language response x) ->
  exists note, syntax_note ast_parse language response = Ret note /\
               (note = [] \/ exists e, note = annotation e).
Proof.
  intros Hno. pose proof (syntax_note_cases ast_parse language response) as H.
  destruct (syntax_note ast_parse language response) as [note|x|].
  - exists note. auto.
  - exfalso. exact (Hno x H).
  - contradiction.
Qed.

(** The review with a note that is nothing or an annotation. *)
Lemma with_note_app (response note : pystr) :
  (note = [] \/ exists e, note = annotation e) ->
  exists tail, with_note response note = response ++ tail /\
    (tail = [] \/ exists e, tail = [NEWLINE; NEWLINE] ++ annotation e).
Proof.
  intros [->|[e ->]].
  - exists []. rewrite app_nil_r. auto.
  - exists ([NEWLINE; NEWLINE] ++ annotation e). split; [reflexivity|].
    right. exists e. reflexivity.
Qed.

Lemma has_all_headers_nonempty (response : pystr) :
  has_all_headers response -> response <> [].
Proof.
  intros H. apply Forall_inv in H. destruct H as (pre & post & -> & _).
  destruct pre; discriminate.
Qed.

Section PipelineFacts.
Variable v : interpreter.
Variable llm_invoke : pystr -> invoked.
Variable ast_parse : pystr -> parsed.

Lemma syntax_step_returns (language response : pystr) :
  syntax_step v ast_parse language response =
  syntax_note ast_parse language response.
Proof.
  unfold syntax_step, syntax_note, checked_code.
  destruct (pystr_eqb (lower language) (lit "python")) eqn:E; [|reflexivity].
  rewrite (extract_code_blocks_plain v _ _ (lower_python_plain _ E)).
  cbn [mbind py_bind].
  destruct (find_block response language) as [[|c code]|]; reflexivity.
Qed.

(** [review_code], once the state holds a language and a code. *)
Lemma review_code_unfold (state : gmap string pystr) (language code : pystr) :
  state !! "language" = Some language -> state !! "code" = Some code ->
  review_code v llm_invoke ast_parse state =
  match llm_invoke (prompt language (strip code)) with
  | Failed e => Ret {[ "error" := lit "API Error: " ++ e ]}
  | Content response =>
      if forallb (fun h => hit h response) headers then
        note ← syntax_note ast_parse language response;
        Ret {[ "language" := language;
               "code" := strip code;
               "review" := with_note response note;
               "error" := [] ]}
      else Ret {[ "error" := lit "Invalid response format from AI model" ]}
  end.
Proof.
  intros Hl Hc. unfold review_code, getitem. rewrite Hl, Hc.
  cbn [mbind py_bind].
  destruct (llm_invoke (prompt language (strip code))) as [response|e];
    [|reflexivity].
  rewrite validate_response_format_hits. cbn [mbind py_bind].
  destruct (forallb (fun h => hit h response) headers); cbn [negb];
    [|reflexivity].
  rewrite syntax_step_returns.
  destruct (syntax_note ast_parse language response) as [[|c note]| |];
    reflexivity.
Qed.

(** What [review_code] does on a state with a language and a code: it
    returns a record, or raises what the parser raised on the code of the
    response. *)
Lemma review_code_outcomes (state : gmap string pystr)
    (language code : pystr) :
  state !! "language" = Some language -> state !! "code" = Some code ->
  (exists d, review_code v llm_invoke ast_parse state = Ret d) \/
  (exists response x,
     llm_invoke (prompt language (strip code)) = Content response /\
     has_all_headers response /\
     parser_raises ast_parse language response x /\
     review_code v llm_invoke ast_parse state = Raise x).
Proof.
  intros Hl Hc. rewrite (review_code_unfold _ _ _ Hl Hc).
  destruct (llm_invoke (prompt language (strip code))) as [response|e];
    [|left; eexists; reflexivity].
  destruct (forallb (fun h => hit h response) headers) eqn:E;
    [|left; eexists; reflexivity].
  pose proof (syntax_note_cases ast_parse language response) as H.
  destruct (syntax_note ast_parse language response) as [note|x|].
  - left. eexists. reflexivity.
  - right. exists response, x. apply hits_iff in E. auto.
  - contradiction.
Qed.

(** In a record [review_code] returns, exactly one of the review and the
    error holds text. *)
Lemma review_code_one_of (state d : gmap string pystr) :
  review_code v llm_invoke ast_parse state = Ret d ->
  nonempty_field d "review" /\ ~ nonempty_field d "error" \/
  ~ nonempty_field d "review" /\ nonempty_field d "error".
Proof.
  intros Hd.
  destruct (state !! "language") as [language|] eqn:Hl;
    [destruct (state !! "code") as [code|] eqn:Hc|];
    try (unfold review_code, getitem in Hd; rewrite Hl, ?Hc in Hd;
         discriminate).
  rewrite (review_code_unfold _ _ _ Hl Hc) in Hd.
  destruct (llm_invoke (prompt language (strip code))) as [response|e].
  - destruct (forallb (fun h => hit h response) headers) eqn:E.
    + destruct (syntax_note ast_parse language response) as [note|x|];
        try discriminate.
      injection Hd as <-. left. split.
      * eexists. split; [reflexivity|].
        apply hits_iff, has_all_headers_nonempty in E.
        unfold with_note.
        destruct note; [exact E | destruct response; discriminate].
      * intros (s & Hs & Hne). apply Hne. injection Hs as <-. reflexivity.
    + injection Hd as <-. right. split.
      * intros (s & Hs & _). discriminate.
      * eexists. split; [reflexivity | discriminate].
  - injection Hd as <-. right. split.
    + intros (s & Hs & _). discriminate.
    + eexists. split; [reflexivity | discriminate].
Qed.
End PipelineFacts.

(** ** Properties of [review_code] *)

Section PipelineProperties.
Variable v : interpreter.
Variable llm_invoke : pystr -> invoked.
Variable ast_parse : pystr -> parsed.

(** C2. When one of the four headers is missing from the response,
    [review_code] returns the error record: its error is
    [Invalid response format from AI model], it holds no review text (the
    error is its only field), and so the response is not in it. *)
Theorem review_code_missing_header
    (state : gmap string pystr) (language code response : pystr) :
  state !! "language" = Some language -> state !! "code" = Some code ->
  llm_invoke (prompt language (strip code)) = Content response ->
  ~ has_all_headers response ->
  exists d,
    review_code v llm_invoke ast_parse state = Ret d /\
    d !! "error" = Some (lit "Invalid response format from AI model") /\
    ~ nonempty_field d "review" /\
    d = {[ "error" := lit "Invalid response format from AI model" ]}.
Proof.
  intros Hl Hc Hllm Hh.
  rewrite (review_code_unfold v llm_invoke ast_parse _ _ _ Hl Hc), Hllm.
  destruct (forallb (fun h => hit h response) headers) eqn:E.
  - exfalso. apply Hh, hits_iff, E.
  - eexists. split; [reflexivity|]. split; [reflexivity|].
    split; [|reflexivity]. intros (s & Hs & _). discriminate.
Qed.

(** C3, amended. When the model call raises, [review_code] returns a
    record whose error is [API Error: ] followed by the message of the
    exception, and which has no review field: the error is its only field.
    The record depends on nothing but the message, so neither validation
    nor extraction has a part in it. *)
Theorem review_code_api_error
    (state : gmap string pystr) (language code e : pystr) :
  state !! "language" = Some language -> state !! "code" = Some code ->
  llm_invoke (prompt language (strip code)) = Failed e ->
  exists d,
    review_code v llm_invoke ast_parse state = Ret d /\
    d !! "error" = Some (lit "API Error:" ++ lit " " ++ e) /\
    d !! "review" = None /\
    d = {[ "error" := lit "API Error: " ++ e ]}.
Proof.
  intros Hl Hc Hllm.
  rewrite (review_code_unfold v llm_invoke ast_parse _ _ _ Hl Hc), Hllm.
  eexists. split; [reflexivity|]. split; [reflexivity|].
  split; reflexivity.
Qed.
End PipelineProperties.

Section SyntaxProperties.
Variable v : interpreter.
Variable llm_invoke : pystr -> invoked.
Variable ast_parse : pystr -> parsed.


(** C7. For a language that does not lower to [python] the syntax step
    does nothing: on a response that passes the format validation,
    [review_code] returns the language, the trimmed code, the response as
    it came for the review, and the empty string for the error. *)
Theorem review_code_other_language
    (state : gmap string pystr) (language code response : pystr) :
  state !! "language" = Some language -> state !! "code" = Some code ->
  llm_invoke (prompt language (strip code)) = Content response ->
  pystr_eqb (lower language) (lit "python") = false ->
  validate_response_format v response = Ret true ->
  review_code v llm_invoke ast_parse state =
  Ret {[ "language" := language; "code" := strip code;
         "review" := response; "error" := [] ]}.
Proof.
  intros Hl Hc Hllm Hpy Hv.
  rewrite (review_code_unfold v llm_invoke ast_parse _ _ _ Hl Hc), Hllm.
  assert (Hh : forallb (fun h => hit h response) headers = true)
    by (rewrite validate_response_format_hits in Hv; congruence).
  rewrite Hh.
  unfold syntax_note, checked_code. rewrite Hpy. reflexivity.
Qed.

(** C8. For every state, in the record [review_code] returns exactly one
    of the review and the error holds text. On a state that holds a
    language and a code it does return a record, unless the parser raises
    an exception other than [SyntaxError] on the code of the response,
    which [review_code] then raises in its turn. *)
Theorem review_code_one_of_review_error (state : gmap string pystr) :
  (forall d,
     review_code v llm_invoke ast_parse state = Ret d ->
     nonempty_field d "review" /\ ~ nonempty_field d "error" \/
     ~ nonempty_field d "review" /\ nonempty_field d "error") /\
  (forall language code,
     state !! "language" = Some language -> state !! "code" = Some code ->
     (exists d, review_code v llm_invoke ast_parse state = Ret d) \/
     (exists response x,
        llm_invoke (prompt language (strip code)) = Content response /\
        has_all_headers response /\
        parser_raises ast_parse language response x /\
        review_code v llm_invoke ast_parse state = Raise x)).
Proof.
  split.
  - intros d. apply review_code_one_of.
  - intros language code. apply review_code_outcomes.
Qed.
End SyntaxProperties.

(** C9. With the response of the model fixed, two runs of [review_code] on
    the same state have the same outcome, whatever else the model call
    would answer: both return one and the same record, or both raise the
    exception the parser raised on the code of the response. *)
Theorem review_code_deterministic (v : interpreter)
    (llm_first llm_second : pystr -> invoked)
    (ast_parse : pystr -> parsed)
    (state : gmap string pystr) (language code response : pystr) :
  state !! "language" = Some language -> state !! "code" = Some code ->
  llm_first (prompt language (strip code)) = Content response ->
  llm_second (prompt language (strip code)) = Content response ->
  review_code v llm_first ast_parse state =
  review_code v llm_second ast_parse state /\
  ((exists d, review_code v llm_first ast_parse state = Ret d) \/
   (exists x, parser_raises ast_parse language response x /\
              review_code v llm_first ast_parse state = Raise x)).
Proof.
  intros Hl Hc H1 H2. split.
  - rewrite !(review_code_unfold v _ ast_parse _ _ _ Hl Hc), H1, H2.
    reflexivity.
  - destruct (review_code_outcomes v llm_first ast_parse _ _ _ Hl Hc)
      as [H|(response' & x & Hr & _ & Hp & Hx)]; [left; exact H|].
    right. exists x. split; [|exact Hx]. congruence.
Qed.

(** ** The matcher on the pattern for [C++] *)

Lemma c_run_tag (k : nat) (post : pystr) :
  c_run (repeat LETTER_C k ++ NEWLINE :: post) = k.
Proof.
  induction k as [|k IH]; cbn [repeat app c_run]; [reflexivity|].
  rewrite N.eqb_refl, IH. reflexivity.
Qed.

Lemma c_run_split (s : pystr) :
  s = repeat LETTER_C (c_run s) ++ drop (c_run s) s.
Proof.
  induction s as [|c s IH]; cbn [c_run]; [reflexivity|].
  destruct (N.eqb_spec LETTER_C c) as [<-|_]; cbn [repeat app drop];
    [|reflexivity].
  f_equal. exact IH.
Qed.

Lemma c_opening_Some (s : pystr) (n : nat) :
  c_opening s = Some n <-> exists post, s = opening (c_tag n) ++ post.
Proof.
  unfold c_opening. split.
  - destruct (startswith fence s) eqn:Ef; [|discriminate].
    apply startswith_split in Ef. change (length fence) with 3 in Ef.
    destruct (c_run (drop 3 s)) as [|k] eqn:Ek; [discriminate|].
    destruct (startswith [NEWLINE] (drop (S k) (drop 3 s))) eqn:En;
      [|discriminate].
    intros [= <-]. apply startswith_split in En.
    exists (drop 1 (drop (S k) (drop 3 s))).
    rewrite Ef at 1. rewrite (c_run_split (drop 3 s)) at 1. rewrite Ek.
    rewrite En at 1. unfold opening, c_tag. rewrite <- !app_assoc.
    reflexivity.
  - intros [post ->]. unfold opening. rewrite <- !app_assoc.
    rewrite startswith_app.
    change (drop 3 (fence ++ c_tag n ++ [NEWLINE] ++ post))
      with (c_tag n ++ NEWLINE :: post).
    unfold c_tag. rewrite c_run_tag.
    rewrite drop_app_length' by (symmetry; apply repeat_length).
    cbn [startswith]. rewrite N.eqb_refl. reflexivity.
Qed.

Lemma star_possessive_c {R : Type}
    (k : option N -> nat -> pystr -> marks -> option R) prev i r ms :
  star_possessive RE_DOTALL (ALit LETTER_C) k prev i r ms =
  k (last_prev prev (take (c_run r) r)) (i + c_run r) (drop (c_run r) r) ms.
Proof.
  revert prev i. induction r as [|c r IH]; intros prev i;
    cbn [star_possessive c_run atom_ok].
  - rewrite Nat.add_0_r. reflexivity.
  - destruct (N.eqb LETTER_C c); cbn [take drop last_prev].
    + rewrite IH. replace (S i + c_run r) with (i + S (c_run r)) by lia.
      reflexivity.
    + rewrite Nat.add_0_r. reflexivity.
Qed.

Lemma run_block_tail prev j r :
  run RE_DOTALL (OOpen 1 :: ORepeat QStar Lazy ADot :: OClose 1 :: lits fence)
    prev j r [] =
  match find fence r with
  | Some n => Some (j + n + length fence, [(1, true, j + n); (1, false, j)])
  | None => None
  end.
Proof. cbn [run star]. apply star_lazy_fence. Qed.

Lemma run_cpp prev i rest :
  run RE_DOTALL cpp_prog prev i rest [] =
  match c_block_here rest with
  | Some (len, m) =>
      Some (i + len + m + length fence,
            [(1, true, i + len + m); (1, false, i + len)])
  | None => None
  end.
Proof.
  unfold cpp_prog, c_block_here, c_opening. rewrite run_lits.
  destruct (startswith fence rest); [|reflexivity].
  change (length fence) with 3. cbn [app].
  remember (OOpen 1 :: ORepeat QStar Lazy ADot :: OClose 1 :: lits fence)
    as tail eqn:Et.
  destruct (drop 3 rest) as [|c r] eqn:Er; [reflexivity|].
  cbn [run star one atom_ok c_run].
  destruct (N.eqb LETTER_C c); [|reflexivity].
  rewrite star_possessive_c. cbn [drop].
  destruct (drop (c_run r) r) as [|d r'] eqn:Ed; [reflexivity|].
  cbn [one atom_ok startswith]. destruct (N.eqb NEWLINE d); [|reflexivity].
  cbn [andb mbind option_bind]. subst tail. rewrite run_block_tail.
  assert (Hlen : length (opening (c_tag (c_run r))) = c_run r + 5).
  { unfold opening, c_tag. rewrite !length_app, repeat_length.
    change (length fence) with 3. simpl. lia. }
  rewrite Hlen.
  assert (Hd : drop (c_run r + 5) rest = r').
  { replace (c_run r + 5) with (3 + (1 + (c_run r + 1))) by lia.
    rewrite <- !drop_drop, Er. change (drop 1 (c :: r)) with r.
    rewrite Ed. reflexivity. }
  rewrite Hd. destruct (find fence r') as [m|]; cbn [mbind option_bind];
    [|reflexivity].
  change (length fence) with 3. places.
Qed.

Lemma search_cpp prev i rest :
  search_from RE_DOTALL cpp_prog prev i rest =
  match scan_c_block rest with
  | Some (a, len, m) =>
      Some (i + a, i + a + len + m + length fence,
            [(1, true, i + a + len + m); (1, false, i + a + len)])
  | None => None
  end.
Proof.
  revert prev i. induction rest as [|c rest IH]; intros prev i;
    cbn [search_from scan_c_block]; rewrite run_cpp.
  - destruct (c_block_here []) as [[len m]|]; places.
  - destruct (c_block_here (c :: rest)) as [[len m]|]; [places|].
    rewrite IH. destruct (scan_c_block rest) as [[[a len] m]|]; places.
Qed.

Lemma pattern_search_cpp (response : pystr) :
  stripped_group
    (pattern_search {| p_prog := cpp_prog; p_flags := RE_DOTALL;
                       p_groups := 1 |} response)
  = Ret (find_c_block response).
Proof.
  unfold pattern_search, find_c_block. cbn [p_flags p_prog p_groups].
  rewrite search_cpp.
  destruct (scan_c_block response) as [[[a len] m]|]; [|reflexivity].
  cbn [stripped_group]. unfold group.
  cbn [m_marks m_string find_mark Nat.eqb Bool.eqb andb Nat.add].
  match goal with
  | |- context [take (?x + m - ?x)] => replace (x + m - x) with m by lia
  end.
  reflexivity.
Qed.

Lemma extract_code_blocks_cpp (response : pystr) :
  extract_code_blocks Py3_11 response (lit "C++") =
  Ret (find_c_block response, find_c_block response).
Proof.
  unfold extract_code_blocks, re_compile.
  replace (parse Py3_11 (block_pattern (lit "C++")) 0 0 [] [])
    with (Compiled cpp_prog 1) by (vm_compute; reflexivity).
  cbn [mbind py_bind]. rewrite pattern_search_cpp. reflexivity.
Qed.

(** Two tags of C that open a block at the same place are one tag. *)
Lemma c_tag_unique (n n' : nat) (post post' : pystr) :
  opening (c_tag n) ++ post = opening (c_tag n') ++ post' -> n = n'.
Proof.
  intros H.
  assert (E : c_opening (opening (c_tag n) ++ post) = Some n)
    by (apply c_opening_Some; eauto).
  rewrite H in E.
  assert (E' : c_opening (opening (c_tag n') ++ post') = Some n')
    by (apply c_opening_Some; eauto).
  congruence.
Qed.

Lemma c_block_here_Some (s : pystr) (len m : nat) :
  c_block_here s = Some (len, m) ->
  exists n body post,
    s = opening (c_tag n) ++ body ++ fence ++ post /\
    len = length (opening (c_tag n)) /\ length body = m /\
    forall n' body' post',
      s = opening (c_tag n') ++ body' ++ fence ++ post' ->
      m <= length body'.
Proof.
  unfold c_block_here. destruct (c_opening s) as [n|] eqn:En; [|discriminate].
  cbn [mbind option_bind].
  destruct (find fence (drop (length (opening (c_tag n))) s)) as [k|] eqn:Ek;
    [|discriminate].
  cbn [mbind option_bind]. intros [= <- <-].
  apply c_opening_Some in En as [rest ->].
  rewrite drop_app_length in Ek.
  apply find_Some in Ek as (body & post & -> & Hlen & Hmin).
  exists n, body, post. repeat split; [exact Hlen|].
  intros n' body' post' H.
  pose proof (c_tag_unique _ _ _ _ H) as <-.
  apply app_inv_head in H. specialize (Hmin _ _ H). lia.
Qed.

Lemma c_block_here_None (s : pystr) :
  c_block_here s = None ->
  forall n body post, s <> opening (c_tag n) ++ body ++ fence ++ post.
Proof.
  unfold c_block_here. intros H n body post ->.
  assert (En : c_opening (opening (c_tag n) ++ body ++ fence ++ post)
               = Some n) by (apply c_opening_Some; eauto).
  rewrite En in H. cbn [mbind option_bind] in H.
  rewrite drop_app_length in H.
  destruct (find_occurs fence body post) as (k & Hk & _).
  rewrite Hk in H. discriminate.
Qed.

Lemma scan_c_block_Some (s : pystr) (a len m : nat) :
  scan_c_block s = Some (a, len, m) ->
  exists n pre body post,
    s = pre ++ opening (c_tag n) ++ body ++ fence ++ post /\
    length pre = a /\ len = length (opening (c_tag n)) /\ length body = m /\
    forall n' pre' body' post',
      s = pre' ++ opening (c_tag n') ++ body' ++ fence ++ post' ->
      a <= length pre' /\ (length pre' = a -> m <= length body').
Proof.
  revert a. induction s as [|c s IH]; intros a; cbn [scan_c_block].
  - destruct (c_block_here []) as [[len' m']|] eqn:E; [|discriminate].
    intros [= <- <- <-].
    apply c_block_here_Some in E as (n & body & post & Hs & Hl & Hb & Hmin).
    exists n, [], body, post. repeat split; auto; [lia|].
    intros Hp. apply length_zero_iff_nil in Hp. subst pre'.
    exact (Hmin _ _ _ H).
  - destruct (c_block_here (c :: s)) as [[len' m']|] eqn:E.
    + intros [= <- <- <-].
      apply c_block_here_Some in E as (n & body & post & Hs & Hl & Hb & Hmin).
      exists n, [], body, post. repeat split; auto; [lia|].
      intros Hp. apply length_zero_iff_nil in Hp. subst pre'.
      exact (Hmin _ _ _ H).
    + destruct (scan_c_block s) as [[[a' len'] m']|] eqn:F; [|discriminate].
      intros [= <- <- <-].
      destruct (IH a' eq_refl)
        as (n & pre & body & post & -> & Ha & Hl & Hb & Hmin).
      exists n, (c :: pre), body, post.
      repeat split; auto; [simpl; lia| |].
      * destruct pre' as [|c' pre'].
        -- exfalso. exact (c_block_here_None _ E _ _ _ H).
        -- injection H as _ H. apply Hmin in H. simpl. lia.
      * destruct pre' as [|c' pre']; [simpl; lia|].
        injection H as _ H. apply Hmin in H. simpl. intros Hp. apply H. lia.
Qed.

Lemma scan_c_block_None (s : pystr) :
  scan_c_block s = None ->
  forall n pre body post,
    s <> pre ++ opening (c_tag n) ++ body ++ fence ++ post.
Proof.
  induction s as [|c s IH]; cbn [scan_c_block].
  - destruct (c_block_here []) as [[len m]|] eqn:E; [discriminate|].
    intros _ n pre body post H. destruct pre as [|c' pre]; [|discriminate].
    exact (c_block_here_None _ E _ _ _ H).
  - destruct (c_block_here (c :: s)) as [[len m]|] eqn:E; [discriminate|].
    destruct (scan_c_block s) as [[[a len] m]|] eqn:F; [discriminate|].
    intros _ n pre body post H. destruct pre as [|c' pre].
    + exact (c_block_here_None _ E _ _ _ H).
    + injection H as _ H. exact (IH eq_refl _ _ _ _ H).
Qed.

Lemma find_c_block_Some (response b : pystr) :
  find_c_block response = Some b ->
  exists body, first_c_block response body /\ b = strip body.
Proof.
  unfold find_c_block.
  destruct (scan_c_block response) as [[[a len] m]|] eqn:E; [|discriminate].
  intros [= <-].
  apply scan_c_block_Some in E
    as (n & pre & body & post & -> & Ha & -> & Hb & Hmin).
  exists body. split.
  - exists n, pre, post. split; [reflexivity|].
    intros n' pre' body' post' H. rewrite Ha, Hb. exact (Hmin _ _ _ _ H).
  - rewrite <- Ha, <- length_app, app_assoc, drop_app_length.
    rewrite <- Hb, take_app_length. reflexivity.
Qed.

Lemma find_c_block_None (response : pystr) :
  find_c_block response = None -> forall n, ~ has_block response (c_tag n).
Proof.
  unfold find_c_block.
  destruct (scan_c_block response) as [[[a len] m]|] eqn:E; [discriminate|].
  intros _ n (pre & body & post & H).
  exact (scan_c_block_None _ E _ _ _ _ H).
Qed.

Lemma extract_code_blocks_cpp_first (response : pystr) :
  both_first_c_block response.
Proof.
  unfold both_first_c_block. rewrite extract_code_blocks_cpp.
  destruct (find_c_block response) as [b|] eqn:E.
  - left. apply find_c_block_Some in E as (body & Hf & ->).
    exists body. split; [exact Hf | reflexivity].
  - right. split; [apply find_c_block_None, E | reflexivity].
Qed.

(** A block tagged [C++] does not open where one tagged with a run of C
    does. *)
Lemma c_tag_not_cpp (n : nat) (post post' : pystr) :
  opening (c_tag n) ++ post <> opening (lit "C++") ++ post'.
Proof.
  intros H.
  assert (E : c_opening (opening (c_tag n) ++ post) = Some n)
    by (apply c_opening_Some; eauto).
  rewrite H in E. discriminate E.
Qed.

(** ** Properties of [extract_code_blocks] *)

Lemma extract_code_blocks_returns (v : interpreter)
    (response language : pystr) prog g :
  parse v (block_pattern language) 0 0 [] [] = Compiled prog g ->
  In (1, false) (marks_of prog) -> In (1, true) (marks_of prog) ->
  exists t, extract_code_blocks v response language = Ret t.
Proof.
  intros Hp Ho Hc. unfold extract_code_blocks, re_compile. rewrite Hp.
  cbn [mbind py_bind].
  destruct (stripped_group_returns
              {| p_prog := prog; p_flags := RE_DOTALL; p_groups := g |}
              response Ho Hc) as [r ->].
  eexists. reflexivity.
Qed.

Lemma extract_code_blocks_cpp_3_10 (response : pystr) :
  extract_code_blocks Py3_10 response (lit "C++") =
  Raise (re_error (lit "multiple repeat") 5).
Proof.
  unfold extract_code_blocks, re_compile.
  replace (parse Py3_10 (block_pattern (lit "C++")) 0 0 [] [])
    with (ParseError (lit "multiple repeat") 5) by (vm_compute; reflexivity).
  reflexivity.
Qed.

Lemma extract_code_blocks_cpp_3_11 (response : pystr) :
  exists t, extract_code_blocks Py3_11 response (lit "C++") = Ret t.
Proof.
  apply (extract_code_blocks_returns Py3_11 response (lit "C++")
           (lits fence ++ [ORepeat QPlus Possessive (ALit 67%N);
                            OAtom (ALit NEWLINE); OOpen 1;
                            ORepeat QStar Lazy ADot; OClose 1] ++ lits fence)
           1).
  - vm_compute. reflexivity.
  - vm_compute. auto.
  - vm_compute. auto.
Qed.

(** C4, as stated, fails for the language [C++] of the page: up to Python
    3.10 the call raises, and from 3.11 on both slots hold the text of a
    block tagged [C], while no block tagged [C++] is there. *)
Lemma extract_code_blocks_cpp_not_first_block :
  ~ both_first_block Py3_10 sample_c_block (lit "C++") /\
  ~ both_first_block Py3_11 sample_c_block (lit "C++").
Proof.
  assert (Hno : ~ has_block sample_c_block (lit "C++")).
  { intros (pre & body & post & H). unfold block_at in H.
    refine (find_None (opening (lit "C++")) sample_c_block _ _ _ H).
    vm_compute. reflexivity. }
  split; intros [(body & (pre & post & Hb & _) & Hx) | (_ & Hx)].
  - rewrite extract_code_blocks_cpp_3_10 in Hx. discriminate.
  - rewrite extract_code_blocks_cpp_3_10 in Hx. discriminate.
  - apply Hno. exists pre, body, post. exact Hb.
  - assert (E : extract_code_blocks Py3_11 sample_c_block (lit "C++")
                = Ret (Some (lit "foo"), Some (lit "foo")))
      by (vm_compute; reflexivity).
    rewrite E in Hx. discriminate.
Qed.

(** C4, amended. Whenever [extract_code_blocks] returns a pair, its two
    slots are equal; and when the language holds no special character of
    [re] it returns, with in both slots the trimmed text of the first block
    tagged with the language, or [None] in both when the response has no
    such block. *)
Theorem extract_code_blocks_slots (v : interpreter)
    (response language : pystr) :
  (forall t, extract_code_blocks v response language = Ret t ->
             fst t = snd t) /\
  (Forall (fun c => plain c = true) language ->
   both_first_block v response language).
Proof.
  split.
  - intros t. unfold extract_code_blocks.
    destruct (re_compile v (block_pattern language) RE_DOTALL) as [p| |];
      cbn [mbind py_bind]; try discriminate.
    destruct (stripped_group (pattern_search p response)) as [r| |];
      cbn [mbind py_bind mret py_ret]; try discriminate.
    intros [= <-]. reflexivity.
  - intros Hl. unfold both_first_block.
    rewrite (extract_code_blocks_plain v _ _ Hl).
    destruct (find_block response language) as [b|] eqn:E.
    + left. apply find_block_Some in E as (body & Hb & ->).
      exists body. split; [exact Hb | reflexivity].
    + right. split; [apply find_block_None, E | reflexivity].
Qed.

(** C10, as stated, fails from Python 3.11 on: no language of the page
    makes the extractor raise. *)
Lemma extract_code_blocks_ui_languages_3_11 :
  ~ exists language response e,
      In language ui_languages /\
      extract_code_blocks Py3_11 response language = Raise e.
Proof.
  intros (language & response & e & Hin & H).
  destruct (extract_code_blocks_cpp_3_11 response) as [t Ht].
  cbn [ui_languages In] in Hin.
  destruct Hin as [<-|[<-|[<-|[<-|[<-|[]]]]]];
    try (rewrite extract_code_blocks_plain in H
           by (repeat constructor); discriminate).
  congruence.
Qed.

(** C10, amended. The language goes into the pattern unescaped. For the
    language [C++] of the page the call raises [multiple repeat] up to
    Python 3.10; from 3.11 on the doubled plus is a possessive repeat and
    the call returns for every response: both slots hold the trimmed text
    of the first block whose tag is a run of C, or [None] when no block has
    such a tag, and a block tagged [C++] is never the one found.
    [review_code] is not reached by either: a language that lowers to
    [python] always gives a pair, so that [review_code] returns a record or
    raises what the parser raised, and nothing else. *)
Theorem extract_code_blocks_unescaped :
  (forall response,
     extract_code_blocks Py3_10 response (lit "C++") =
     Raise (re_error (lit "multiple repeat") 5)) /\
  (forall response, both_first_c_block response) /\
  (forall response n pre body post,
     block_at response (c_tag n) pre body post ->
     forall body' post', ~ block_at response (lit "C++") pre body' post') /\
  extract_code_blocks Py3_11 sample_c_block (lit "C++") =
    Ret (Some (lit "foo"), Some (lit "foo")) /\
  extract_code_blocks Py3_11 sample_cpp_block (lit "C++") = Ret (None, None) /\
  (forall v language response,
     pystr_eqb (lower language) (lit "python") = true ->
     exists t, extract_code_blocks v response language = Ret t) /\
  (forall v llm_invoke ast_parse (state : gmap string pystr) language code,
     state !! "language" = Some language -> state !! "code" = Some code ->
     (exists d, review_code v llm_invoke ast_parse state = Ret d) \/
     (exists response x,
        llm_invoke (prompt language (strip code)) = Content response /\
        has_all_headers response /\
        parser_raises ast_parse language response x /\
        review_code v llm_invoke ast_parse state = Raise x)).
Proof.
  split; [exact extract_code_blocks_cpp_3_10|].
  split; [exact extract_code_blocks_cpp_first|].
  split.
  { intros response n pre body post H body' post' H'.
    unfold block_at in H, H'. rewrite H in H'.
    apply app_inv_head in H'. exact (c_tag_not_cpp _ _ _ H'). }
  split; [vm_compute; reflexivity|].
  split; [vm_compute; reflexivity|].
  split.
  - intros v language response H. eexists.
    apply extract_code_blocks_plain, lower_python_plain, H.
  - intros v llm_invoke ast_parse state language code.
    apply review_code_outcomes.
Qed.

(** ** The properties on the sample runs *)

(** C1 fails where the parser raises an exception that is not a
    [SyntaxError]: the response holds the four headers and a block tagged
    [Python] with a NUL character in it, [ast.parse] raises [ValueError] on
    that code, [validate_python_syntax] does not catch it, and
    [review_code] raises it instead of returning a record. *)
Theorem review_code_raises_on_nul :
  has_all_headers (sample_response sample_nul_code) /\
  review_code Py3_11 (fun _ => Content (sample_response sample_nul_code))
    sample_nul_parse (sample_state (lit "Python")) =
  Raise (PyException "ValueError"
           (lit "source code string cannot contain null bytes")).
Proof.
  split; [apply hits_iff|]; vm_compute; reflexivity.
Qed.

(** C3, as stated, fails: after a failed model call the record has no
    review field, so its review is not the empty string. *)
Lemma review_code_api_error_no_review :
  ~ exists d,
      review_code Py3_11 (fun _ => Failed (lit "timeout")) sample_parse
        (sample_state (lit "Python")) = Ret d /\
      (exists rest, d !! "error" = Some (lit "API Error:" ++ rest)) /\
      d !! "review" = Some [].
Proof.
  intros (d & Hd & _ & Hr).
  rewrite (review_code_unfold _ _ _ (sample_state (lit "Python"))
             (lit "Python") (lit " x = 1 ") eq_refl eq_refl) in Hd.
  injection Hd as <-. discriminate Hr.
Qed.

Lemma review_code_missing_header_witness :
  exists d,
    review_code Py3_11 (fun _ => Content sample_short_response) sample_parse
      (sample_state (lit "Python")) = Ret d /\
    d !! "error" = Some (lit "Invalid response format from AI model") /\
    ~ nonempty_field d "review" /\
    d = {[ "error" := lit "Invalid response format from AI model" ]}.
Proof.
  apply (review_code_missing_header Py3_11 _ sample_parse
           (sample_state (lit "Python")) (lit "Python") (lit " x = 1 ")
           sample_short_response);
    [reflexivity | reflexivity | reflexivity |].
  intros H. apply hits_iff in H. vm_compute in H. discriminate.
Defined.

Lemma review_code_api_error_witness :
  exists d,
    review_code Py3_11 (fun _ => Failed (lit "timeout")) sample_parse
      (sample_state (lit "Python")) = Ret d /\
    d !! "error" = Some (lit "API Error:" ++ lit " " ++ lit "timeout") /\
    d !! "review" = None /\
    d = {[ "error" := lit "API Error: " ++ lit "timeout" ]}.
Proof.
  apply (review_code_api_error Py3_11 _ sample_parse
           (sample_state (lit "Python")) (lit "Python") (lit " x = 1 "));
    reflexivity.
Defined.


Lemma review_code_other_language_witness :
  review_code Py3_11 (fun _ => Content (sample_response sample_bad_code))
    sample_parse (sample_state (lit "Java")) =
  Ret {[ "language" := lit "Java"; "code" := strip (lit " x = 1 ");
         "review" := sample_response sample_bad_code; "error" := [] ]}.
Proof.
  apply (review_code_other_language Py3_11 _ sample_parse
           (sample_state (lit "Java")) (lit "Java") (lit " x = 1 "));
    try reflexivity; vm_compute; reflexivity.
Defined.

Lemma review_code_one_of_review_error_witness :
  exists d,
    review_code Py3_11 (fun _ => Content sample_short_response) sample_parse
      (sample_state (lit "Go")) = Ret d /\
    (nonempty_field d "review" /\ ~ nonempty_field d "error" \/
     ~ nonempty_field d "review" /\ nonempty_field d "error").
Proof.
  exists {[ "error" := lit "Invalid response format from AI model" ]}.
  assert (H : review_code Py3_11 (fun _ => Content sample_short_response)
                sample_parse (sample_state (lit "Go")) =
              Ret {[ "error" := lit "Invalid response format from AI model" ]})
    by (vm_compute; reflexivity).
  split; [exact H|].
  exact (proj1 (review_code_one_of_review_error Py3_11
                  (fun _ => Content sample_short_response) sample_parse
                  (sample_state (lit "Go"))) _ H).
Defined.

Lemma review_code_deterministic_witness :
  review_code Py3_10 (fun _ => Content (sample_response sample_bad_code))
    sample_parse (sample_state (lit "Python")) =
  review_code Py3_10
    (fun p => if pystr_eqb p (prompt (lit "Python") (lit "x = 1"))
              then Content (sample_response sample_bad_code)
              else Failed [])
    sample_parse (sample_state (lit "Python")) /\
  ((exists d,
      review_code Py3_10 (fun _ => Content (sample_response sample_bad_code))
        sample_parse (sample_state (lit "Python")) = Ret d) \/
   (exists x,
      parser_raises sample_parse (lit "Python")
        (sample_response sample_bad_code) x /\
      review_code Py3_10 (fun _ => Content (sample_response sample_bad_code))
        sample_parse (sample_state (lit "Python")) = Raise x)).
Proof.
  apply (review_code_deterministic Py3_10 _ _ sample_parse
           (sample_state (lit "Python")) (lit "Python") (lit " x = 1 ")
           (sample_response sample_bad_code));
    try reflexivity; vm_compute; reflexivity.
Defined.

(** * Further properties *)

(** ** Trimming *)

Lemma lstrip_length (s : pystr) : length (lstrip s) <= length s.
Proof.
  induction s as [|c s IH]; simpl; [lia|].
  destruct (isspace c); simpl; lia.
Qed.

Lemma lstrip_head (c : N) (s : pystr) :
  lstrip (c :: s) = c :: s -> isspace c = false.
Proof.
  simpl. destruct (isspace c); [|reflexivity]. intros H.
  pose proof (lstrip_length s) as Hl. rewrite H in Hl. simpl in Hl. lia.
Qed.

Lemma lstrip_snoc (s : pystr) (c : N) :
  isspace c = false -> lstrip (s ++ [c]) = lstrip s ++ [c].
Proof.
  intros Hc. induction s as [|x s IH]; simpl.
  - rewrite Hc. reflexivity.
  - destruct (isspace x); [exact IH | reflexivity].
Qed.

Lemma lstrip_idem (s : pystr) : lstrip (lstrip s) = lstrip s.
Proof.
  induction s as [|c s IH]; simpl; [reflexivity|].
  destruct (isspace c) eqn:E; [exact IH|]. simpl. rewrite E. reflexivity.
Qed.

Lemma rstrip_cons (c : N) (s : pystr) :
  isspace c = false -> rstrip (c :: s) = c :: rstrip s.
Proof.
  intros Hc. unfold rstrip. simpl. rewrite (lstrip_snoc _ _ Hc).
  rewrite rev_app_distr. reflexivity.
Qed.

Lemma rstrip_idem (s : pystr) : rstrip (rstrip s) = rstrip s.
Proof. unfold rstrip. rewrite rev_involutive, lstrip_idem. reflexivity. Qed.

(** Trimming on the right keeps a text trimmed on the left. *)
Lemma lstrip_rstrip (s : pystr) :
  lstrip s = s -> lstrip (rstrip s) = rstrip s.
Proof.
  destruct s as [|c s]; [reflexivity|]. intros H.
  apply lstrip_head in H. rewrite (rstrip_cons _ _ H). simpl.
  rewrite H. reflexivity.
Qed.

Lemma strip_idem (s : pystr) : strip (strip s) = strip s.
Proof.
  unfold strip. rewrite (lstrip_rstrip _ (lstrip_idem s)). apply rstrip_idem.
Qed.

Lemma strip_fixed (s : pystr) : strip s = s -> lstrip s = s /\ rstrip s = s.
Proof.
  intros H. split.
  - rewrite <- H at 1. unfold strip.
    rewrite (lstrip_rstrip _ (lstrip_idem s)). exact H.
  - rewrite <- H at 1. unfold strip. rewrite rstrip_idem. exact H.
Qed.

(** A space after a trimmed text is trimmed away. *)
Lemma strip_snoc_space (s : pystr) (w : N) :
  strip s = s -> isspace w = true -> strip (s ++ [w]) = s.
Proof.
  intros H Hw. apply strip_fixed in H as [Hl Hr]. unfold strip.
  destruct s as [|c s].
  - simpl. rewrite Hw. reflexivity.
  - pose proof (lstrip_head _ _ Hl) as Hc.
    change ((c :: s) ++ [w]) with (c :: (s ++ [w])).
    cbn [lstrip]. rewrite Hc.
    change (c :: (s ++ [w])) with ((c :: s) ++ [w]).
    unfold rstrip in *. rewrite rev_app_distr. cbn [rev app lstrip].
    rewrite Hw. exact Hr.
Qed.

Lemma lstrip_Forall (P : N -> Prop) (s : pystr) :
  Forall P s -> Forall P (lstrip s).
Proof.
  induction 1 as [|c s Hc Hs IH]; simpl; [constructor|].
  destruct (isspace c); [exact IH | constructor; assumption].
Qed.

Lemma strip_Forall (P : N -> Prop) (s : pystr) :
  Forall P s -> Forall P (strip s).
Proof.
  intros H. unfold strip, rstrip.
  apply List.Forall_rev, lstrip_Forall, List.Forall_rev, lstrip_Forall, H.
Qed.

(** ** What [review_code] reads *)

(** X1. [review_code] reads the language and the code of the state and
    nothing else, and the code only up to the white space around it: two
    states with the same language whose codes trim to the same text give
    the same outcome, whatever their review and error fields hold. *)
Theorem review_code_reads_language_and_code
    (v : interpreter) (llm_invoke : pystr -> invoked)
    (ast_parse : pystr -> parsed)
    (state state' : gmap string pystr) (language code code' : pystr) :
  state !! "language" = Some language -> state !! "code" = Some code ->
  state' !! "language" = Some language -> state' !! "code" = Some code' ->
  strip code = strip code' ->
  review_code v llm_invoke ast_parse state =
  review_code v llm_invoke ast_parse state'.
Proof.
  intros Hl Hc Hl' Hc' Hs.
  rewrite (review_code_unfold v llm_invoke ast_parse _ _ _ Hl Hc).
  rewrite (review_code_unfold v llm_invoke ast_parse _ _ _ Hl' Hc').
  rewrite Hs. reflexivity.
Qed.

(** X2. A state without a language makes [review_code] raise
    [KeyError('language')], and one with a language and no code
    [KeyError('code')]; the model is not asked in either case. *)
Theorem review_code_missing_key
    (v : interpreter) (llm_invoke : pystr -> invoked)
    (ast_parse : pystr -> parsed) (state : gmap string pystr) :
  (state !! "language" = None ->
   review_code v llm_invoke ast_parse state = Raise (KeyError "language")) /\
  (is_Some (state !! "language") -> state !! "code" = None ->
   review_code v llm_invoke ast_parse state = Raise (KeyError "code")).
Proof.
  split.
  - intros H. unfold review_code, getitem. rewrite H. reflexivity.
  - intros [l Hl] Hc. unfold review_code, getitem. rewrite Hl, Hc.
    reflexivity.
Qed.

(** X3. The grammar of [re] plays no part in [review_code]: on every state
    it gives the same outcome up to Python 3.10 and from 3.11 on, although
    [extract_code_blocks] does not (for the language [C++]). *)
Theorem review_code_same_on_both_interpreters
    (llm_invoke : pystr -> invoked) (ast_parse : pystr -> parsed)
    (state : gmap string pystr) :
  review_code Py3_10 llm_invoke ast_parse state =
  review_code Py3_11 llm_invoke ast_parse state.
Proof.
  destruct (state !! "language") as [language|] eqn:Hl;
    [destruct (state !! "code") as [code|] eqn:Hc|].
  - rewrite !(review_code_unfold _ llm_invoke ast_parse _ _ _ Hl Hc).
    reflexivity.
  - unfold review_code, getitem. rewrite Hl, Hc. reflexivity.
  - unfold review_code, getitem. rewrite Hl. reflexivity.
Qed.

(** ** What the extractor returns *)

(** X4. The code [extract_code_blocks] returns is trimmed, for every
    language and in both slots: trimming it again changes nothing. *)
Theorem extract_code_blocks_trimmed (v : interpreter)
    (response language : pystr) (corrected optimized : option pystr) :
  extract_code_blocks v response language = Ret (corrected, optimized) ->
  (forall c, corrected = Some c -> strip c = c) /\
  (forall c, optimized = Some c -> strip c = c).
Proof.
  unfold extract_code_blocks.
  destruct (re_compile v (block_pattern language) RE_DOTALL) as [p| |];
    cbn [mbind py_bind]; try discriminate.
  unfold stripped_group.
  destruct (pattern_search p response) as [m|]; cbn [mbind py_bind].
  - destruct (group m 1) as [g|]; cbn [mbind py_bind mret py_ret];
      [|discriminate].
    intros [= <- <-]. split; intros c [= <-]; apply strip_idem.
  - intros [= <- <-]. split; discriminate.
Qed.

(** ** When the annotation is added *)

(** X5. For a language that lowers to [python] and a response with the
    four headers, what [review_code] does is decided by the first block
    tagged with the language, trimmed. When it is not empty and the parser
    refuses it with a [SyntaxError], the review is the response with the
    annotation. When there is no such block, or it is empty, or it parses,
    whatever later blocks hold, the review is the response as it came. When
    it is not empty and the parser raises another exception on it,
    [review_code] raises that exception and returns no record. *)
Theorem review_code_annotation_iff
    (v : interpreter) (llm_invoke : pystr -> invoked)
    (ast_parse : pystr -> parsed)
    (state : gmap string pystr) (language code response : pystr) :
  state !! "language" = Some language -> state !! "code" = Some code ->
  llm_invoke (prompt language (strip code)) = Content response ->
  pystr_eqb (lower language) (lit "python") = true ->
  has_all_headers response ->
  (exists body e,
     first_block response language body /\ strip body <> [] /\
     ast_parse (strip body) = SyntaxError e /\
     review_code v llm_invoke ast_parse state =
     Ret {[ "language" := language; "code" := strip code;
            "review" := response ++ [NEWLINE; NEWLINE] ++ annotation e;
            "error" := [] ]}) \/
  ((forall body, first_block response language body ->
                 strip body = [] \/ ast_parse (strip body) = Parsed) /\
   review_code v llm_invoke ast_parse state =
   Ret {[ "language" := language; "code" := strip code;
          "review" := response; "error" := [] ]}) \/
  (exists body x,
     first_block response language body /\ strip body <> [] /\
     ast_parse (strip body) = ParseRaised x /\
     review_code v llm_invoke ast_parse state = Raise x).
Proof.
  intros Hl Hc Hllm Hpy Hh.
  rewrite (review_code_unfold v llm_invoke ast_parse _ _ _ Hl Hc), Hllm.
  apply hits_iff in Hh. rewrite Hh.
  unfold syntax_note, checked_code, validate_python_syntax. rewrite Hpy.
  destruct (find_block response language) as [b|] eqn:E.
  - apply find_block_Some in E as (body & Hf & ->).
    destruct (strip body) as [|c b] eqn:Eb.
    + right. left. split; [|reflexivity].
      intros body' Hf'. rewrite <- (first_block_unique _ _ _ _ Hf Hf').
      left. exact Eb.
    + destruct (ast_parse (c :: b)) as [|e|x] eqn:Ea.
      * right. left. split; [|reflexivity].
        intros body' Hf'. rewrite <- (first_block_unique _ _ _ _ Hf Hf').
        right. rewrite Eb. exact Ea.
      * left. exists body, e. rewrite Eb.
        split; [exact Hf|]. split; [discriminate|]. split; [exact Ea|].
        reflexivity.
      * right. right. exists body, x. rewrite Eb.
        split; [exact Hf|]. split; [discriminate|]. split; [exact Ea|].
        reflexivity.
  - right. left. split; [|reflexivity].
    intros body Hf. apply find_block_first in Hf. congruence.
Qed.

(** X14. When the response of the model holds the four headers, each at
    the start of a line, and the parser raises no exception other than
    [SyntaxError] on the code of the response, [review_code] returns a
    record whose error is the empty string and whose review is the whole
    response, followed by nothing or by two newlines and the syntax
    annotation. When the parser does raise such an exception,
    [review_code] raises it. *)
Theorem review_code_valid_response
    (v : interpreter) (llm_invoke : pystr -> invoked)
    (ast_parse : pystr -> parsed)
    (state : gmap string pystr) (language code response : pystr) :
  state !! "language" = Some language -> state !! "code" = Some code ->
  llm_invoke (prompt language (strip code)) = Content response ->
  has_all_headers response ->
  ((forall x, ~ parser_raises ast_parse language response x) ->
   exists d note,
     review_code v llm_invoke ast_parse state = Ret d /\
     d !! "error" = Some [] /\
     d !! "review" = Some (response ++ note) /\
     (note = [] \/ exists e, note = [NEWLINE; NEWLINE] ++ annotation e)) /\
  (forall x, parser_raises ast_parse language response x ->
             review_code v llm_invoke ast_parse state = Raise x).
Proof.
  intros Hl Hc Hllm Hh.
  rewrite (review_code_unfold v llm_invoke ast_parse _ _ _ Hl Hc), Hllm.
  apply hits_iff in Hh. rewrite Hh. split.
  - intros Hno.
    destruct (syntax_note_returns _ _ _ Hno) as (note & -> & Hnote).
    destruct (with_note_app response note Hnote) as (tail & Ht & Htail).
    eexists. exists tail. cbn [mbind py_bind]. rewrite Ht.
    split; [reflexivity|]. split; [reflexivity|].
    split; [reflexivity | exact Htail].
  - intros x Hx. rewrite (syntax_note_raises _ _ _ _ Hx). reflexivity.
Qed.

(** ** Text around the headers *)

Lemma ends_line_app (pre pre' : pystr) :
  ends_line pre -> ends_line pre' -> ends_line (pre ++ pre').
Proof.
  intros H [->|[p ->]].
  - rewrite app_nil_r. exact H.
  - right. exists (pre ++ p). rewrite app_assoc. reflexivity.
Qed.

Lemma at_line_start_context (h s before after : pystr) :
  ends_line before -> at_line_start h s ->
  at_line_start h (before ++ s ++ after).
Proof.
  intros Hb (pre & post & -> & Hp).
  exists (before ++ pre), (post ++ after). split.
  - rewrite <- !app_assoc. reflexivity.
  - apply ends_line_app; assumption.
Qed.

Lemma has_all_headers_context (s before after : pystr) :
  ends_line before -> has_all_headers s ->
  has_all_headers (before ++ s ++ after).
Proof.
  intros Hb H. unfold has_all_headers in *.
  eapply List.Forall_impl; [|exact H].
  intros h Hh. apply at_line_start_context; assumption.
Qed.

Lemma validate_true_iff (v : interpreter) (s : pystr) :
  validate_response_format v s = Ret true <-> has_all_headers s.
Proof.
  rewrite validate_response_format_hits, <- hits_iff.
  split; [congruence | intros ->; reflexivity].
Qed.

(** X6. Text around a response does not spoil it: when a response passes
    [validate_response_format], so does the response followed by any text,
    and so does it with any lines before it. *)
Theorem validate_response_format_context (v : interpreter)
    (s before after : pystr) :
  validate_response_format v s = Ret true ->
  validate_response_format v (s ++ after) = Ret true /\
  validate_response_format v (before ++ [NEWLINE] ++ s ++ after) = Ret true.
Proof.
  intros H. apply validate_true_iff in H. split; apply validate_true_iff.
  - apply (has_all_headers_context s [] after); [left; reflexivity | exact H].
  - rewrite app_assoc.
    apply (has_all_headers_context s (before ++ [NEWLINE]) after);
      [right; exists before; reflexivity | exact H].
Qed.

(** X7. The review of a record without error passes
    [validate_response_format]: the annotation the syntax step appends
    leaves the four headers where they were. *)
Theorem review_code_review_valid
    (v : interpreter) (llm_invoke : pystr -> invoked)
    (ast_parse : pystr -> parsed) (state d : gmap string pystr) :
  review_code v llm_invoke ast_parse state = Ret d ->
  d !! "error" = Some [] ->
  exists r, d !! "review" = Some r /\
            validate_response_format v r = Ret true.
Proof.
  intros Hd He.
  destruct (state !! "language") as [language|] eqn:Hl;
    [destruct (state !! "code") as [code|] eqn:Hc|];
    try (unfold review_code, getitem in Hd; rewrite Hl, ?Hc in Hd;
         discriminate).
  rewrite (review_code_unfold v llm_invoke ast_parse _ _ _ Hl Hc) in Hd.
  destruct (llm_invoke (prompt language (strip code))) as [response|e].
  - destruct (forallb (fun h => hit h response) headers) eqn:E.
    + destruct (syntax_note ast_parse language response) as [note|x|];
        try discriminate.
      injection Hd as <-. eexists. split; [reflexivity|].
      apply validate_true_iff. apply hits_iff in E. unfold with_note.
      destruct note as [|c note]; [exact E|].
      apply (has_all_headers_context response [] _);
        [left; reflexivity | exact E].
    + injection Hd as <-. discriminate He.
  - injection Hd as <-. discriminate He.
Qed.

(** ** A model that echoes the prompt *)

Lemma after_newline_app (h x s : pystr) :
  after_newline h s -> after_newline h (x ++ s).
Proof.
  intros (pre & post & ->). exists (x ++ pre), post.
  rewrite <- app_assoc. reflexivity.
Qed.

Lemma after_newline_here (h s : pystr) :
  startswith h s = true -> after_newline h ([NEWLINE] ++ s).
Proof.
  intros H. apply startswith_iff in H as [post ->]. exists [], post.
  reflexivity.
Qed.

Lemma after_newline_start (h s : pystr) :
  after_newline h s -> at_line_start h s.
Proof.
  intros (pre & post & ->). exists (pre ++ [NEWLINE]), post. split.
  - rewrite <- app_assoc. reflexivity.
  - right. exists pre. reflexivity.
Qed.

(** The prompt names the four headers, each at the start of a line. *)
Lemma prompt_has_all_headers (language code : pystr) :
  has_all_headers (prompt language code).
Proof.
  unfold has_all_headers, headers, prompt.
  repeat constructor; apply after_newline_start;
    repeat first [ apply after_newline_here; reflexivity
                 | apply after_newline_app ].
Qed.

(** X8. The prompt itself passes [validate_response_format], for every
    language and code: the format validation cannot tell a review from the
    prompt sent back. *)
Theorem validate_response_format_prompt (v : interpreter)
    (language code : pystr) :
  validate_response_format v (prompt language code) = Ret true.
Proof. apply validate_true_iff, prompt_has_all_headers. Qed.

Lemma find_startswith (w s : pystr) :
  startswith w s = true -> find w s = Some 0.
Proof. intros H. destruct s; simpl; rewrite H; reflexivity. Qed.

Lemma find_fresh (x : N) (w pre post : pystr) :
  Forall (fun c => c <> x) pre ->
  find (x :: w) (pre ++ (x :: w) ++ post) = Some (length pre).
Proof.
  induction 1 as [|c pre Hc Hpre IH].
  - change ([] ++ (x :: w) ++ post) with ((x :: w) ++ post).
    apply find_startswith, startswith_app.
  - change ((c :: pre) ++ (x :: w) ++ post)
      with (c :: (pre ++ (x :: w) ++ post)).
    cbn [find startswith length].
    destruct (N.eqb_spec x c) as [->|_]; [contradiction|].
    cbn [andb]. rewrite IH. reflexivity.
Qed.

Lemma no_backtick_forallb (s : pystr) :
  forallb (fun c => negb (N.eqb c BACKTICK)) s = true ->
  Forall (fun c => c <> BACKTICK) s.
Proof.
  intros H. apply List.Forall_forall. intros c Hc.
  rewrite forallb_forall in H. specialize (H c Hc).
  apply negb_true_iff, N.eqb_neq in H. exact H.
Qed.

Lemma prompt_split (language code : pystr) :
  prompt language code =
  prompt_head language ++ opening language ++ (code ++ [NEWLINE]) ++ fence.
Proof.
  unfold prompt, prompt_head, opening, fence.
  rewrite <- !app_assoc. reflexivity.
Qed.

Lemma prompt_head_no_backtick (language : pystr) :
  Forall (fun c => c <> BACKTICK) language ->
  Forall (fun c => c <> BACKTICK) (prompt_head language).
Proof.
  intros H. unfold prompt_head.
  repeat first [ exact H
               | apply Forall_app; split
               | apply no_backtick_forallb; vm_compute; reflexivity ].
Qed.

(** The block the prompt holds is the trimmed code. *)
Lemma find_block_prompt (language code : pystr) :
  Forall (fun c => c <> BACKTICK) language ->
  Forall (fun c => c <> BACKTICK) code ->
  find_block (prompt language (strip code)) language = Some (strip code).
Proof.
  intros Hl Hc. unfold find_block. rewrite prompt_split.
  change (opening language)
    with (BACKTICK :: (BACKTICK :: BACKTICK :: language ++ [NEWLINE])).
  rewrite (find_fresh _ _ _ _ (prompt_head_no_backtick _ Hl)).
  cbn [mbind option_bind]. rewrite app_assoc, <- length_app, drop_app_length.
  assert (Hb : Forall (fun c => c <> BACKTICK) (strip code ++ [NEWLINE])).
  { apply Forall_app. split; [apply strip_Forall, Hc|].
    repeat constructor. discriminate. }
  pose proof (find_fresh BACKTICK [BACKTICK; BACKTICK] _ [] Hb) as Hf.
  rewrite app_nil_r in Hf.
  change (BACKTICK :: [BACKTICK; BACKTICK]) with fence in Hf.
  rewrite Hf. cbn [mbind option_bind]. rewrite take_app_length.
  rewrite (strip_snoc_space _ NEWLINE (strip_idem code) eq_refl).
  reflexivity.
Qed.

(** X9. The extractor finds the code of the prompt again: for a language
    of plain text without a backtick and a code without a backtick, both
    slots of [extract_code_blocks] on the prompt hold the trimmed code. *)
Theorem extract_code_blocks_prompt (v : interpreter)
    (language code : pystr) :
  Forall (fun c => plain c = true) language ->
  Forall (fun c => c <> BACKTICK) language ->
  Forall (fun c => c <> BACKTICK) code ->
  extract_code_blocks v (prompt language (strip code)) language =
  Ret (Some (strip code), Some (strip code)).
Proof.
  intros Hp Hl Hc. rewrite (extract_code_blocks_plain v _ _ Hp).
  rewrite (find_block_prompt _ _ Hl Hc). reflexivity.
Qed.

Lemma lower_python_no_backtick (language : pystr) :
  pystr_eqb (lower language) (lit "python") = true ->
  Forall (fun c => c <> BACKTICK) language.
Proof.
  intros H. apply pystr_eqb_eq in H. apply List.Forall_forall.
  intros c Hc ->.
  assert (Hin : In BACKTICK (lower language)).
  { unfold lower. apply in_flat_map. exists BACKTICK.
    split; [exact Hc | left; reflexivity]. }
  rewrite H in Hin.
  change (lit "python") with [112; 121; 116; 104; 111; 110]%N in Hin.
  cbn [In] in Hin. unfold BACKTICK in Hin. intuition lia.
Qed.

(** X10. A model that sends the prompt back is taken for a review: when
    the language lowers to [python] and the code holds no backtick, what
    the syntax step parses is the user's own trimmed code. When that code
    is empty or parses, [review_code] returns a record without error whose
    review is the prompt; when the parser refuses it with a [SyntaxError],
    the review is the prompt with the annotation; when the parser raises
    another exception on it, [review_code] raises that exception. *)
Theorem review_code_echo
    (v : interpreter) (llm_invoke : pystr -> invoked)
    (ast_parse : pystr -> parsed)
    (state : gmap string pystr) (language code : pystr) :
  state !! "language" = Some language -> state !! "code" = Some code ->
  pystr_eqb (lower language) (lit "python") = true ->
  Forall (fun c => c <> BACKTICK) code ->
  llm_invoke (prompt language (strip code)) =
    Content (prompt language (strip code)) ->
  (strip code = [] \/ ast_parse (strip code) = Parsed ->
   review_code v llm_invoke ast_parse state =
   Ret {[ "language" := language; "code" := strip code;
          "review" := prompt language (strip code); "error" := [] ]}) /\
  (forall e, strip code <> [] -> ast_parse (strip code) = SyntaxError e ->
   review_code v llm_invoke ast_parse state =
   Ret {[ "language" := language; "code" := strip code;
          "review" := prompt language (strip code)
                      ++ [NEWLINE; NEWLINE] ++ annotation e;
          "error" := [] ]}) /\
  (forall x, strip code <> [] -> ast_parse (strip code) = ParseRaised x ->
   review_code v llm_invoke ast_parse state = Raise x).
Proof.
  intros Hl Hc Hpy Hcode Hllm.
  rewrite (review_code_unfold v llm_invoke ast_parse _ _ _ Hl Hc), Hllm.
  pose proof (prompt_has_all_headers language (strip code)) as Hh.
  apply hits_iff in Hh. rewrite Hh.
  unfold syntax_note, checked_code, validate_python_syntax. rewrite Hpy.
  rewrite (find_block_prompt _ _ (lower_python_no_backtick _ Hpy) Hcode).
  destruct (strip code) as [|c s] eqn:Es.
  - split; [reflexivity|]. split; intros ? Hne; contradiction.
  - destruct (ast_parse (c :: s)) as [|e|x] eqn:Ea.
    + split; [reflexivity|]. split; intros ? _ H; discriminate.
    + split; [intros [H|H]; discriminate|].
      split; [intros e' _ [= <-]; reflexivity | intros ? _ H; discriminate].
    + split; [intros [H|H]; discriminate|].
      split; [intros ? _ H; discriminate | intros x' _ [= <-]; reflexivity].
Qed.

(** ** The button of the page *)

(** What a click shows once the editor holds more than white space. *)
Lemma on_analyze_unfold (v : interpreter) (llm_invoke : pystr -> invoked)
    (ast_parse : pystr -> parsed) (language code_input : pystr) :
  strip code_input <> [] ->
  on_analyze v llm_invoke ast_parse language code_input =
  match llm_invoke (prompt language (strip code_input)) with
  | Failed e =>
      Ret [st_spinner (lit "Analyzing code...");
           st_error (lit "Error: " ++ lit "API Error: " ++ e)]
  | Content response =>
      if forallb (fun h => hit h response) headers then
        note ← syntax_note ast_parse language response;
        Ret [st_spinner (lit "Analyzing code...");
             st_subheader (lit "Analysis Results");
             st_markdown (with_note response note) true]
      else
        Ret [st_spinner (lit "Analyzing code...");
             st_error (lit "Error: "
                       ++ lit "Invalid response format from AI model")]
  end.
Proof.
  intros Hne. unfold on_analyze.
  destruct (strip code_input) as [|c s] eqn:Es; [contradiction|].
  cbn [truthy_str negb]. cbv zeta.
  set (state := ({[ "language" := language; "code" := code_input;
                    "review" := []; "error" := [] ]} : gmap string pystr)).
  assert (Hl : state !! "language" = Some language) by reflexivity.
  assert (Hc : state !! "code" = Some code_input) by reflexivity.
  rewrite (review_code_unfold v llm_invoke ast_parse _ _ _ Hl Hc), Es.
  destruct (llm_invoke (prompt language (c :: s))) as [response|e];
    [|reflexivity].
  destruct (forallb (fun h => hit h response) headers); [|reflexivity].
  destruct (syntax_note ast_parse language response) as [note|x|];
    reflexivity.
Qed.

(** X11. What a click on the button comes to, whatever the language, the
    text of the editor, the model and the parser do. The page shows the
    warning, or the spinner and an error banner with a message that is not
    empty, or the spinner, the heading and a review that holds the four
    headers. Otherwise the click raises: the response has the four headers
    and the parser raised, on the code of the response, an exception other
    than [SyntaxError], which is the one the click raises. Nothing else is
    raised: the partial records of [review_code] are safe to read because
    the review is read only when the error is empty. *)
Theorem on_analyze_outcomes (v : interpreter)
    (llm_invoke : pystr -> invoked) (ast_parse : pystr -> parsed)
    (language code_input : pystr) :
  (exists out,
     on_analyze v llm_invoke ast_parse language code_input = Ret out /\
     (out = [st_warning (lit "Please enter code to analyze")] \/
      (exists e, e <> [] /\
         out = [st_spinner (lit "Analyzing code...");
                st_error (lit "Error: " ++ e)]) \/
      (exists r, has_all_headers r /\
         out = [st_spinner (lit "Analyzing code...");
                st_subheader (lit "Analysis Results");
                st_markdown r true]))) \/
  (exists response x,
     strip code_input <> [] /\
     llm_invoke (prompt language (strip code_input)) = Content response /\
     has_all_headers response /\
     parser_raises ast_parse language response x /\
     on_analyze v llm_invoke ast_parse language code_input = Raise x).
Proof.
  destruct (strip code_input) as [|c s] eqn:Es.
  - left. eexists. split; [unfold on_analyze; rewrite Es; reflexivity|].
    left. reflexivity.
  - assert (Hne : strip code_input <> []) by (rewrite Es; discriminate).
    rewrite (on_analyze_unfold _ _ _ _ _ Hne). rewrite <- Es.
    destruct (llm_invoke (prompt language (strip code_input)))
      as [response|e].
    + destruct (forallb (fun h => hit h response) headers) eqn:E.
      * apply hits_iff in E.
        pose proof (syntax_note_cases ast_parse language response) as H.
        destruct (syntax_note ast_parse language response) as [note|x|].
        -- left. eexists. split; [reflexivity|]. right. right.
           eexists. split; [|reflexivity]. unfold with_note.
           destruct note; [exact E|].
           apply (has_all_headers_context response [] _);
             [left; reflexivity | exact E].
        -- right. exists response, x. auto.
        -- contradiction.
      * left. eexists. split; [reflexivity|]. right. left.
        eexists. split; [|reflexivity]. discriminate.
    + left. eexists. split; [reflexivity|]. right. left.
      eexists. split; [|reflexivity]. discriminate.
Qed.

(** X12. The page shows the warning exactly when the editor holds nothing
    but white space; it then shows nothing else, whatever the model would
    answer. *)
Theorem on_analyze_warning_iff (v : interpreter)
    (llm_invoke : pystr -> invoked) (ast_parse : pystr -> parsed)
    (language code_input : pystr) :
  on_analyze v llm_invoke ast_parse language code_input =
    Ret [st_warning (lit "Please enter code to analyze")]
  <-> strip code_input = [].
Proof.
  split.
  - intros H. destruct (strip code_input) as [|c s] eqn:Es; [reflexivity|].
    rewrite on_analyze_unfold in H by (rewrite Es; discriminate).
    destruct (llm_invoke (prompt language (strip code_input)))
      as [response|e]; [|discriminate].
    destruct (forallb (fun h => hit h response) headers); [|discriminate].
    destruct (syntax_note ast_parse language response); discriminate.
  - intros Es. unfold on_analyze. rewrite Es. reflexivity.
Qed.

(** X13. What the model answers reaches the page as it came: when the
    editor holds more than white space, the response has the four headers
    and the parser raises no exception other than [SyntaxError] on the
    code of the response, the page shows the spinner, the heading and,
    through [st.markdown] with [unsafe_allow_html], the response itself,
    character for character, followed by nothing or by the annotation.
    Nothing of it is escaped or removed. When the parser does raise such
    an exception, the click raises it and the response is not shown. *)
Theorem on_analyze_renders_response (v : interpreter)
    (llm_invoke : pystr -> invoked) (ast_parse : pystr -> parsed)
    (language code_input response : pystr) :
  strip code_input <> [] ->
  llm_invoke (prompt language (strip code_input)) = Content response ->
  has_all_headers response ->
  ((forall x, ~ parser_raises ast_parse language response x) ->
   exists note,
     on_analyze v llm_invoke ast_parse language code_input =
     Ret [st_spinner (lit "Analyzing code...");
          st_subheader (lit "Analysis Results");
          st_markdown (response ++ note) true] /\
     (note = [] \/ exists e, note = [NEWLINE; NEWLINE] ++ annotation e)) /\
  (forall x, parser_raises ast_parse language response x ->
             on_analyze v llm_invoke ast_parse language code_input = Raise x).
Proof.
  intros Hne Hllm Hh. rewrite (on_analyze_unfold _ _ _ _ _ Hne), Hllm.
  apply hits_iff in Hh. rewrite Hh. split.
  - intros Hno.
    destruct (syntax_note_returns _ _ _ Hno) as (note & -> & Hnote).
    destruct (with_note_app response note Hnote) as (tail & Ht & Htail).
    exists tail. cbn [mbind py_bind]. rewrite Ht.
    split; [reflexivity | exact Htail].
  - intros x Hx. rewrite (syntax_note_raises _ _ _ _ Hx). reflexivity.
Qed.

(** ** The further properties on the sample runs *)

Lemma review_code_reads_language_and_code_witness :
  review_code Py3_11 (fun _ => Content (sample_response sample_bad_code))
    sample_parse (sample_state (lit "Python")) =
  review_code Py3_11 (fun _ => Content (sample_response sample_bad_code))
    sample_parse
    {[ "language" := lit "Python"; "code" := lit "x = 1";
       "review" := lit "an older review"; "error" := lit "an older error" ]}.
Proof.
  apply (review_code_reads_language_and_code Py3_11 _ sample_parse _ _
           (lit "Python") (lit " x = 1 ") (lit "x = 1"));
    try reflexivity; vm_compute; reflexivity.
Defined.

Lemma extract_code_blocks_trimmed_witness :
  (forall c, Some sample_bad_code = Some c -> strip c = c) /\
  (forall c, Some sample_bad_code = Some c -> strip c = c).
Proof.
  apply (extract_code_blocks_trimmed Py3_11
           (sample_response sample_bad_code) (lit "Python")).
  vm_compute. reflexivity.
Defined.

Lemma review_code_annotation_iff_witness :
  (exists body e,
     first_block (sample_response sample_bad_code) (lit "Python") body /\
     strip body <> [] /\ sample_parse (strip body) = SyntaxError e /\
     review_code Py3_11 (fun _ => Content (sample_response sample_bad_code))
       sample_parse (sample_state (lit "Python")) =
     Ret {[ "language" := lit "Python"; "code" := strip (lit " x = 1 ");
            "review" := sample_response sample_bad_code
                        ++ [NEWLINE; NEWLINE] ++ annotation e;
            "error" := [] ]}) \/
  ((forall body,
      first_block (sample_response sample_bad_code) (lit "Python") body ->
      strip body = [] \/ sample_parse (strip body) = Parsed) /\
   review_code Py3_11 (fun _ => Content (sample_response sample_bad_code))
     sample_parse (sample_state (lit "Python")) =
   Ret {[ "language" := lit "Python"; "code" := strip (lit " x = 1 ");
          "review" := sample_response sample_bad_code; "error" := [] ]}) \/
  (exists body x,
     first_block (sample_response sample_bad_code) (lit "Python") body /\
     strip body <> [] /\ sample_parse (strip body) = ParseRaised x /\
     review_code Py3_11 (fun _ => Content (sample_response sample_bad_code))
       sample_parse (sample_state (lit "Python")) = Raise x).
Proof.
  apply (review_code_annotation_iff Py3_11 _ sample_parse
           (sample_state (lit "Python")) (lit "Python") (lit " x = 1 "));
    [reflexivity | reflexivity | reflexivity | vm_compute; reflexivity |].
  apply hits_iff. vm_compute. reflexivity.
Defined.

Lemma review_code_valid_response_witness :
  ((forall x,
      ~ parser_raises sample_nul_parse (lit "Python")
          (sample_response sample_nul_code) x) ->
   exists d note,
     review_code Py3_11 (fun _ => Content (sample_response sample_nul_code))
       sample_nul_parse (sample_state (lit "Python")) = Ret d /\
     d !! "error" = Some [] /\
     d !! "review" = Some (sample_response sample_nul_code ++ note) /\
     (note = [] \/ exists e, note = [NEWLINE; NEWLINE] ++ annotation e)) /\
  (forall x,
     parser_raises sample_nul_parse (lit "Python")
       (sample_response sample_nul_code) x ->
     review_code Py3_11 (fun _ => Content (sample_response sample_nul_code))
       sample_nul_parse (sample_state (lit "Python")) = Raise x).
Proof.
  apply (review_code_valid_response Py3_11 _ sample_nul_parse
           (sample_state (lit "Python")) (lit "Python") (lit " x = 1 "));
    [reflexivity | reflexivity | reflexivity |].
  apply hits_iff. vm_compute. reflexivity.
Defined.

Lemma validate_response_format_context_witness :
  validate_response_format Py3_11
    (sample_response sample_bad_code ++ lit "Regards") = Ret true /\
  validate_response_format Py3_11
    (lit "Here is the review:" ++ [NEWLINE]
     ++ sample_response sample_bad_code ++ lit "Regards") = Ret true.
Proof.
  apply (validate_response_format_context Py3_11
           (sample_response sample_bad_code) (lit "Here is the review:")
           (lit "Regards")).
  vm_compute. reflexivity.
Defined.

Lemma review_code_review_valid_witness :
  exists r,
    ({[ "language" := lit "Java"; "code" := lit "x = 1";
        "review" := sample_response sample_bad_code; "error" := [] ]}
       : gmap string pystr) !! "review" = Some r /\
    validate_response_format Py3_11 r = Ret true.
Proof.
  apply (review_code_review_valid Py3_11
           (fun _ => Content (sample_response sample_bad_code)) sample_parse
           (sample_state (lit "Java"))).
  - vm_compute. reflexivity.
  - reflexivity.
Defined.

Lemma extract_code_blocks_prompt_witness :
  extract_code_blocks Py3_10 (prompt (lit "Python") (strip (lit " x = 1 ")))
    (lit "Python") =
  Ret (Some (strip (lit " x = 1 ")), Some (strip (lit " x = 1 "))).
Proof.
  apply (extract_code_blocks_prompt Py3_10 (lit "Python") (lit " x = 1 ")).
  - repeat constructor.
  - apply no_backtick_forallb. vm_compute. reflexivity.
  - apply no_backtick_forallb. vm_compute. reflexivity.
Defined.

Lemma review_code_echo_witness :
  (strip sample_bad_code = [] \/ sample_parse (strip sample_bad_code) = Parsed
   -> review_code Py3_11 (fun p => Content p) sample_parse
        {[ "language" := lit "python"; "code" := sample_bad_code;
           "review" := []; "error" := [] ]} =
      Ret {[ "language" := lit "python"; "code" := strip sample_bad_code;
             "review" := prompt (lit "python") (strip sample_bad_code);
             "error" := [] ]}) /\
  (forall e, strip sample_bad_code <> [] ->
     sample_parse (strip sample_bad_code) = SyntaxError e ->
     review_code Py3_11 (fun p => Content p) sample_parse
       {[ "language" := lit "python"; "code" := sample_bad_code;
          "review" := []; "error" := [] ]} =
     Ret {[ "language" := lit "python"; "code" := strip sample_bad_code;
            "review" := prompt (lit "python") (strip sample_bad_code)
                        ++ [NEWLINE; NEWLINE] ++ annotation e;
            "error" := [] ]}) /\
  (forall x, strip sample_bad_code <> [] ->
     sample_parse (strip sample_bad_code) = ParseRaised x ->
     review_code Py3_11 (fun p => Content p) sample_parse
       {[ "language" := lit "python"; "code" := sample_bad_code;
          "review" := []; "error" := [] ]} = Raise x).
Proof.
  apply (review_code_echo Py3_11 (fun p => Content p) sample_parse _
           (lit "python") sample_bad_code);
    [reflexivity | reflexivity | vm_compute; reflexivity | | reflexivity].
  apply no_backtick_forallb. vm_compute. reflexivity.
Defined.

Lemma on_analyze_renders_response_witness :
  ((forall x,
      ~ parser_raises sample_parse (lit "Python")
          (sample_response sample_bad_code) x) ->
   exists note,
     on_analyze Py3_11 (fun _ => Content (sample_response sample_bad_code))
       sample_parse (lit "Python") (lit " x = 1 ") =
     Ret [st_spinner (lit "Analyzing code...");
          st_subheader (lit "Analysis Results");
          st_markdown (sample_response sample_bad_code ++ note) true] /\
     (note = [] \/ exists e, note = [NEWLINE; NEWLINE] ++ annotation e)) /\
  (forall x,
     parser_raises sample_parse (lit "Python")
       (sample_response sample_bad_code) x ->
     on_analyze Py3_11 (fun _ => Content (sample_response sample_bad_code))
       sample_parse (lit "Python") (lit " x = 1 ") = Raise x).
Proof.
  apply (on_analyze_renders_response Py3_11 _ sample_parse (lit "Python")
           (lit " x = 1 ") (sample_response sample_bad_code));
    [vm_compute; discriminate | reflexivity |].
  apply hits_iff. vm_compute. reflexivity.
Defined.
